(** * go-containerregistry: the flatten engine and the platform-resolving walkers

    A shallow embedding of
    - [pkg/v1/layout/read.go]   ([maxDepth], [walk], [FindImage]),
    - [pkg/crane/get.go]        ([find], [Read]),
    - [cmd/crane/cmd/flatten.go] ([RemoteWriter], [LocalWriter], [flatten],
      [flattenIndex], [flattenChild], [flattenImage]),
    followed by the properties of the design document that concern them.

    Go interfaces are records of method results: a method returning
    [(T, error)] is a field of type [result T].  Calls that reach the
    registry or the disk thread a [World] explicitly. *)

From stdpp Require Import gmap strings list fin_maps.
From Stdlib Require Import ZArith.

Set Warnings "-register-all".
Open Scope Z_scope.
Open Scope string_scope.
Open Scope list_scope.

(** ** Package v1: hashes, platforms, descriptors *)

Definition Hash := string.
Definition MediaType := string.

Record Platform := mkPlatform {
  Architecture : string;
  OS : string;
  Variant : string
}.

Record Descriptor := mkDescriptor {
  desc_MediaType : MediaType;
  desc_Size : Z;
  desc_Digest : Hash;
  desc_URLs : list string;
  desc_Annotations : gmap string string;
  desc_Platform : option Platform
}.

(** A descriptor with only media type, size and digest set. *)
Definition plainDescriptor (mt : MediaType) (sum : Hash * Z) : Descriptor :=
  {| desc_MediaType := mt; desc_Size := sum.2; desc_Digest := sum.1;
     desc_URLs := []; desc_Annotations := ∅; desc_Platform := None |}.

(** The code of the repository that the three source files call but that
    is not part of them: the media-type classification of package [types]
    and [v1.Platform.Equals].  The walkers are parametric in it. *)
Class V1 := {
  IsIndex : MediaType -> bool;
  IsImage : MediaType -> bool;
  Equals : Platform -> Platform -> bool
}.

(** ** Errors and results *)

Inductive Error :=
| ErrExternal (msg : string)               (* returned by a collaborator *)
| Errorf (ctx : string) (cause : Error)    (* fmt.Errorf("ctx: %w", err) *)
| ErrMaxDepth (depth : Z)                  (* "max depth exceeded: %d" *)
| ErrCannotFind (p : option Platform)      (* "cannot find image for platform %s" *)
| ErrCantFlatten (mt : MediaType)          (* "can't flatten %s" *)
| ErrMarshalHistory.                       (* "marshal history" *)

(** Go's [(T, error)]. *)
Inductive result (A : Type) :=
| Ok (a : A)
| Err (e : Error).
Arguments Ok {A} a.
Arguments Err {A} e.

(** A call either returns its [(T, error)] pair or panics. *)
Inductive outcome (A : Type) :=
| Returns (r : result A)
| Panics (msg : string).
Arguments Returns {A} r.
Arguments Panics {A} msg.

Definition nilDeref : string := "invalid memory address or nil pointer dereference".

(** ** Package v1: layers, config files, manifests, images, indices *)

Record Layer := mkLayer {
  layer_Digest : result Hash;
  layer_DiffID : result Hash;
  layer_Size : result Z
}.

Record History := mkHistory {
  CreatedBy : string;
  Comment : string
}.

Record ConfigFile := mkConfigFile {
  cf_Architecture : string;
  cf_OS : string;
  cf_Env : list string;
  cf_History : list History;
  cf_DiffIDs : list Hash                   (* RootFS.DiffIDs *)
}.

Record Manifest := mkManifest {
  m_MediaType : MediaType;
  m_Config : Descriptor;
  m_Layers : list Descriptor;
  m_Annotations : gmap string string
}.

Record IndexManifest := mkIndexManifest {
  im_MediaType : MediaType;
  im_Manifests : list Descriptor;
  im_Annotations : gmap string string
}.

(** [v1.Image]: one field per method; [img_Descriptor] is what
    [partial.Descriptor] answers for the image. *)
Record Image := mkImage {
  img_MediaType : result MediaType;
  img_Digest : result Hash;
  img_Size : result Z;
  img_Descriptor : result Descriptor;
  img_Manifest : result Manifest;
  img_ConfigFile : result ConfigFile;
  img_Layers : result (list Layer)
}.

(** A [partial.Describable] that is neither a [v1.Image] nor a
    [v1.ImageIndex] (a bare layer, an attached artifact). *)
Record Artifact := mkArtifact {
  art_MediaType : result MediaType;
  art_Digest : result Hash;
  art_Size : result Z;
  art_Descriptor : result Descriptor
}.

(** [v1.ImageIndex] and [partial.Describable].  [Image(h)] and
    [ImageIndex(h)] resolve a child by digest; [manifests] is what
    [partial.Manifests] answers for the index. *)
Inductive ImageIndex :=
| mkImageIndex
    (mediaType : result MediaType)
    (digest : result Hash)
    (size : result Z)
    (descriptor : result Descriptor)
    (indexManifest : result IndexManifest)
    (image : Hash -> result Image)
    (imageIndex : Hash -> result ImageIndex)
    (manifests : result (list Describable))
with Describable :=
| AnImage (img : Image)
| AnIndex (idx : ImageIndex)
| Other (a : Artifact).

Definition idx_MediaType (i : ImageIndex) : result MediaType :=
  let 'mkImageIndex mt _ _ _ _ _ _ _ := i in mt.
Definition idx_Digest (i : ImageIndex) : result Hash :=
  let 'mkImageIndex _ d _ _ _ _ _ _ := i in d.
Definition idx_Size (i : ImageIndex) : result Z :=
  let 'mkImageIndex _ _ s _ _ _ _ _ := i in s.
Definition idx_Descriptor (i : ImageIndex) : result Descriptor :=
  let 'mkImageIndex _ _ _ d _ _ _ _ := i in d.
Definition idx_IndexManifest (i : ImageIndex) : result IndexManifest :=
  let 'mkImageIndex _ _ _ _ m _ _ _ := i in m.
Definition idx_Image (i : ImageIndex) : Hash -> result Image :=
  let 'mkImageIndex _ _ _ _ _ f _ _ := i in f.
Definition idx_ImageIndex (i : ImageIndex) : Hash -> result ImageIndex :=
  let 'mkImageIndex _ _ _ _ _ _ f _ := i in f.
Definition idx_Manifests (i : ImageIndex) : result (list Describable) :=
  let 'mkImageIndex _ _ _ _ _ _ _ ms := i in ms.

(** ** The world outside: registry and disk *)

(** A local OCI layout directory: the descriptors listed by [index.json]
    and the image blobs stored under [blobs/]. *)
Record Layout := mkLayout {
  index_json : list Descriptor;
  blobs : gmap Hash Image
}.

(** What [remote.Get] answers for a reference. *)
Record RemoteDescriptor := mkRemoteDescriptor {
  rd_MediaType : MediaType;
  rd_ImageIndex : result ImageIndex;
  rd_Image : result Image
}.

Record World := mkWorld {
  manifests : gmap string RemoteDescriptor;   (* registry: reference to manifest *)
  uploads : gmap string (list Layer);          (* registry: repository to uploaded blobs *)
  disk : gmap string Layout;                   (* local layouts by path *)
  warnings : list string                       (* logs.Warn *)
}.

Definition set_uploads (u : gmap string (list Layer)) (σ : World) : World :=
  {| manifests := manifests σ; uploads := u; disk := disk σ; warnings := warnings σ |}.
Definition set_disk (d : gmap string Layout) (σ : World) : World :=
  {| manifests := manifests σ; uploads := uploads σ; disk := d; warnings := warnings σ |}.
Definition set_warnings (l : list string) (σ : World) : World :=
  {| manifests := manifests σ; uploads := uploads σ; disk := disk σ; warnings := l |}.

(** Effectful Go code returning [(T, error)]: a state and error monad. *)
Definition M (A : Type) : Type := World -> result A * World.

Definition ret {A} (a : A) : M A := fun σ => (Ok a, σ).
Definition fail {A} (e : Error) : M A := fun σ => (Err e, σ).
Definition bind {A B} (c : M A) (k : A -> M B) : M B :=
  fun σ => match c σ with
           | (Ok a, σ') => k a σ'
           | (Err e, σ') => (Err e, σ')
           end.
Definition lift {A} (r : result A) : M A := fun σ => (r, σ).
(** [if err != nil { return nil, fmt.Errorf("ctx: %w", err) }] *)
Definition wrap {A} (ctx : string) (c : M A) : M A :=
  fun σ => match c σ with
           | (Ok a, σ') => (Ok a, σ')
           | (Err e, σ') => (Err (Errorf ctx e), σ')
           end.

Notation "'let*' x ':=' c 'in' k" := (bind c (fun x => k))
  (at level 10, x name, c at level 100, k at level 200).

(** [match.Matcher] *)
Definition Matcher := Descriptor -> bool.

(** ** Package layout: [walk] and [FindImage] (pkg/v1/layout/read.go) *)

Module layout.
Section WithV1.
Context `{V1}.

Definition maxDepth : Z := 10.

(** The [for _, m := range manifest.Manifests] loop of [walk]; [descend]
    is the body's recursive call [walk(subIdx, matcher, depth+1)]. *)
Section Range.
Variable idx : ImageIndex.
Variable matcher : Matcher.
Variable descend : ImageIndex -> result (option Image).

Fixpoint walkRange (ms : list Descriptor) : result (option Image) :=
  match ms with
  | [] => Ok None
  | m :: rest =>
      if IsIndex (desc_MediaType m) then
        match idx_ImageIndex idx (desc_Digest m) with
        | Err e => Err (Errorf ("reading index " +:+ desc_Digest m) e)
        | Ok subIdx => descend subIdx
        end
      else if IsImage (desc_MediaType m) then
        if matcher m then
          match idx_Image idx (desc_Digest m) with
          | Err e => Err (Errorf ("reading image " +:+ desc_Digest m) e)
          | Ok img => Ok (Some img)
          end
        else walkRange rest
      else walkRange rest
  end.
End Range.

(** The children the loop of [walk] passes over: neither index-shaped
    nor an image-shaped child the matcher accepts. *)
Definition walkSkips (matcher : Matcher) (m : Descriptor) : bool :=
  negb (IsIndex (desc_MediaType m))
  && negb (IsImage (desc_MediaType m) && matcher m).

Fixpoint walk (idx : ImageIndex) (matcher : Matcher) (depth : Z) {struct idx}
  : result (option Image) :=
  if bool_decide (depth >= maxDepth) then Err (ErrMaxDepth depth)
  else
    match idx_IndexManifest idx with
    | Err e => Err (Errorf "reading manifest" e)
    | Ok manifest =>
        walkRange idx matcher (fun subIdx => walk subIdx matcher (depth + 1))
                  (im_Manifests manifest)
    end.

(** The disk as [FromPath] and [FindImage] see it: [os.Stat] of a file
    and [Path.ImageIndex] of a layout directory. *)
Record Disk := mkDisk {
  os_Stat : string -> result unit;
  path_ImageIndex : string -> result ImageIndex
}.

Definition Path := string.

Definition FromPath (fs : Disk) (path : string) : result Path :=
  match os_Stat fs (path +:+ "/index.json") with
  | Err e => Err e
  | Ok _ => Ok path
  end.

Definition FindImage (fs : Disk) (path : Path) (matcher : Matcher)
  : result (option Image) :=
  match path_ImageIndex fs path with
  | Err e => Err (Errorf ("reading image " +:+ path) e)
  | Ok idx =>
      let depth := 0 in
      match walk idx matcher depth with
      | Err e => Err (Errorf ("reading image " +:+ path) e)
      | Ok img => Ok img
      end
  end.

End WithV1.

(** Modelled from the spec: [layout.Write], which is not among the
    sources.  The local sink creates or extends a layout directory: a
    directory that is not there yet is created with the manifests of
    [ii]; one that exists is left as it is. *)
Definition Write (path : string) (ii : ImageIndex)
  : World -> (Path * option Error) * World :=
  fun σ =>
    match disk σ !! path with
    | Some _ => ((path, None), σ)
    | None =>
        match idx_IndexManifest ii with
        | Ok m =>
            ((path, None),
             set_disk (<[path := {| index_json := im_Manifests m; blobs := ∅ |}]> (disk σ)) σ)
        | Err e => ((path, Some e), σ)
        end
    end.

(** Modelled from the spec: [Path.AppendImage], which is not among the
    sources, appends the image and its blobs to the layout atomically:
    the image is stored under its digest and its descriptor is added
    last to [index.json], or nothing changes. *)
Definition AppendImage (p : Path) (img : Image) : M unit :=
  fun σ =>
    match disk σ !! p with
    | None => (Err (ErrExternal ("no layout at " +:+ p)), σ)
    | Some l =>
        match img_MediaType img, img_Size img, img_Digest img with
        | Ok mt, Ok sz, Ok dg =>
            (Ok tt,
             set_disk (<[p := {| index_json := index_json l ++ [plainDescriptor mt (dg, sz)];
                                 blobs := <[dg := img]> (blobs l) |}]> (disk σ)) σ)
        | Err e, _, _ | _, Err e, _ | _, _, Err e => (Err e, σ)
        end
    end.

End layout.

(** ** Package remote *)

Module remote.

(** Modelled from the spec: [remote.Get], which is not among the sources,
    resolves a reference to a root node or fails. *)
Definition Get (ref : string) (opts : list string) : M RemoteDescriptor :=
  fun σ =>
    match manifests σ !! ref with
    | Some d => (Ok d, σ)
    | None => (Err (ErrExternal ("manifest unknown: " +:+ ref)), σ)
    end.

(** Modelled from the spec: [remote.WriteLayer], which is not among the
    sources, uploads a blob to the registry, scoped to one repository, or
    fails. *)
Definition WriteLayer (repo : string) (layer : Layer) (opts : list string)
  : M unit :=
  fun σ =>
    match uploads σ !! repo with
    | Some ls => (Ok tt, set_uploads (<[repo := ls ++ [layer]]> (uploads σ)) σ)
    | None => (Err (ErrExternal ("repository unknown: " +:+ repo)), σ)
    end.

End remote.

(** ** Package crane: [find] and [Read] (pkg/crane/get.go) *)

Module crane.
Section WithV1.
Context `{V1}.

Record Options := mkOptions {
  opt_Name : list string;
  opt_Remote : list string;
  opt_Platform : option Platform
}.

Section Range.
Variable idx : ImageIndex.
Variable o : Options.
Variable descend : ImageIndex -> outcome Image.

(** The [for _, m := range manifest.Manifests] loop of [find], up to the
    final "cannot find image" return.  The platform comparison dereferences
    the two pointers [m.Platform] and [o.Platform] before calling [Equals]:
    a nil one panics. *)
Fixpoint findRange (ms : list Descriptor) : outcome Image :=
  match ms with
  | [] => Returns (Err (ErrCannotFind (opt_Platform o)))
  | m :: rest =>
      if IsIndex (desc_MediaType m) then
        match idx_ImageIndex idx (desc_Digest m) with
        | Err e => Returns (Err (Errorf ("reading index " +:+ desc_Digest m) e))
        | Ok subIdx => descend subIdx
        end
      else if IsImage (desc_MediaType m) then
        match desc_Platform m, opt_Platform o with
        | Some mp, Some op =>
            if Equals mp op then
              match idx_Image idx (desc_Digest m) with
              | Err e => Returns (Err (Errorf ("reading image " +:+ desc_Digest m) e))
              | Ok img => Returns (Ok img)
              end
            else findRange rest
        | _, _ => Panics nilDeref
        end
      else findRange rest
  end.
End Range.

(** The children the loop of [find] passes over: neither index-shaped
    nor image-shaped, or image-shaped with a platform that is there and
    differs from the requested one. *)
Definition findSkips (o : Options) (m : Descriptor) : bool :=
  negb (IsIndex (desc_MediaType m))
  && (if IsImage (desc_MediaType m) then
        match desc_Platform m, opt_Platform o with
        | Some mp, Some op => negb (Equals mp op)
        | _, _ => false
        end
      else true).

Fixpoint find (idx : ImageIndex) (o : Options) {struct idx} : outcome Image :=
  match idx_IndexManifest idx with
  | Err e => Returns (Err (Errorf "reading manifest" e))
  | Ok manifest =>
      findRange idx o (fun subIdx => find subIdx o) (im_Manifests manifest)
  end.

Definition defaultPlatform : Platform :=
  {| Architecture := "amd64"; OS := "linux"; Variant := "" |}.

Definition Read (fs : layout.Disk) (p : string) (o : Options) : outcome Image :=
  let o :=
    match opt_Platform o with
    | None => {| opt_Name := opt_Name o; opt_Remote := opt_Remote o;
                 opt_Platform := Some defaultPlatform |}
    | Some _ => o
    end in
  match layout.FromPath fs p with
  | Err e => Returns (Err (Errorf ("parsing " +:+ p) e))
  | Ok path =>
      match layout.path_ImageIndex fs path with
      | Err e => Returns (Err (Errorf "reading image" e))
      | Ok idx =>
          match find idx o with
          | Returns (Err e) => Returns (Err e)
          | Returns (Ok img) => Returns (Ok img)
          | Panics msg => Panics msg
          end
      end
  end.

End WithV1.
End crane.

(** The code of the repository that [flatten.go] calls and whose results
    depend on serialisation and hashing: taken as parameters. *)
Class Codec := {
  (* stream.NewLayer(mutate.Extract(img), stream.WithCompressionLevel(l)) *)
  stream_NewLayer_Extract : Image -> Z -> Layer;
  (* json.Marshal of a history list *)
  json_Marshal : list History -> result string;
  (* digest and size of a serialised image manifest, index manifest, config *)
  sum_Manifest : Manifest -> Hash * Z;
  sum_IndexManifest : IndexManifest -> Hash * Z;
  sum_ConfigFile : ConfigFile -> Hash * Z;
  (* the media types of empty.Image, its config and layers, and of empty.Index *)
  empty_Image_MediaType : MediaType;
  empty_Config_MediaType : MediaType;
  layer_MediaType : MediaType;
  empty_Index_MediaType : MediaType
}.

Definition gzip_BestCompression : Z := 9.

(** ** Packages partial, empty and mutate *)

Module partial.

(** Modelled from the spec: [partial.Descriptor], which is not among the
    sources, reads the descriptor of a child node (its platform,
    annotations and URL hints included). *)
Definition Descriptor (d : Describable) : result Descriptor :=
  match d with
  | AnImage img => img_Descriptor img
  | AnIndex idx => idx_Descriptor idx
  | Other a => art_Descriptor a
  end.

(** Modelled from the spec: [partial.Manifests], which is not among the
    sources, reads the list of child nodes of an index. *)
Definition Manifests (idx : ImageIndex) : result (list Describable) :=
  idx_Manifests idx.

(** The methods [Size] and [Digest] of the interface [partial.Describable]. *)
Definition Size (d : Describable) : result Z :=
  match d with
  | AnImage img => img_Size img
  | AnIndex idx => idx_Size idx
  | Other a => art_Size a
  end.

Definition Digest (d : Describable) : result Hash :=
  match d with
  | AnImage img => img_Digest img
  | AnIndex idx => idx_Digest idx
  | Other a => art_Digest a
  end.

End partial.

Section Builders.
Context `{Codec}.

(** The image with manifest [m], config [cf] and layers [ls]; digest and
    size are those of the serialised manifest. *)
Definition imageOf (m : Manifest) (cf : ConfigFile) (ls : list Layer) : Image :=
  {| img_MediaType := Ok (m_MediaType m);
     img_Digest := Ok (sum_Manifest m).1;
     img_Size := Ok (sum_Manifest m).2;
     img_Descriptor := Ok (plainDescriptor (m_MediaType m) (sum_Manifest m));
     img_Manifest := Ok m;
     img_ConfigFile := Ok cf;
     img_Layers := Ok ls |}.

(** An image none of whose methods succeeds. *)
Definition brokenImage (e : Error) : Image :=
  {| img_MediaType := Err e; img_Digest := Err e; img_Size := Err e;
     img_Descriptor := Err e; img_Manifest := Err e; img_ConfigFile := Err e;
     img_Layers := Err e |}.

Record IndexAddendum := mkIndexAddendum {
  Add : Describable;
  add_Descriptor : Descriptor
}.

Record Addendum := mkAddendum {
  add_Layer : Layer;
  add_History : History
}.

Fixpoint resolve (adds : list IndexAddendum) (h : Hash) : option Describable :=
  match adds with
  | [] => None
  | a :: rest =>
      if String.eqb (desc_Digest (add_Descriptor a)) h then Some (Add a)
      else resolve rest h
  end.

(** The index with manifest [m] whose children are [children]; [image]
    and [imageIndex] resolve digests the children do not cover. *)
Definition indexOf (m : IndexManifest)
    (image : Hash -> result Image) (imageIndex : Hash -> result ImageIndex)
    (children : list Describable) : ImageIndex :=
  mkImageIndex
    (Ok (im_MediaType m))
    (Ok (sum_IndexManifest m).1)
    (Ok (sum_IndexManifest m).2)
    (Ok (plainDescriptor (im_MediaType m) (sum_IndexManifest m)))
    (Ok m) image imageIndex (Ok children).

Definition notFound {A} (h : Hash) : result A :=
  Err (ErrExternal ("blob not found: " +:+ h)).

End Builders.

Module empty.
Section WithCodec.
Context `{Codec}.

(** Modelled from the spec: [empty.Image], which is not among the
    sources, is the empty base image: no layers, an empty config. *)
Definition ConfigFile : ConfigFile :=
  {| cf_Architecture := ""; cf_OS := ""; cf_Env := [];
     cf_History := []; cf_DiffIDs := [] |}.

Definition Image : Image :=
  imageOf
    {| m_MediaType := empty_Image_MediaType;
       m_Config := plainDescriptor empty_Config_MediaType (sum_ConfigFile ConfigFile);
       m_Layers := []; m_Annotations := ∅ |}
    ConfigFile [].

(** Modelled from the spec: [empty.Index], which is not among the
    sources, is the blank index: no children, no annotations, its own
    default media type. *)
Definition Index : ImageIndex :=
  indexOf
    {| im_MediaType := empty_Index_MediaType; im_Manifests := [];
       im_Annotations := ∅ |}
    notFound notFound [].

End WithCodec.
End empty.

Module mutate.
Section WithCodec.
Context `{Codec}.

(** Modelled from the spec: [mutate.ConfigFile], which is not among the
    sources, is the configuration override: a fresh image with the layers
    of [base] and the config [cfg]. *)
Definition ConfigFile (base : Image) (cfg : ConfigFile) : result Image :=
  match img_Manifest base, img_Layers base with
  | Ok m, Ok ls =>
      Ok (imageOf
            {| m_MediaType := m_MediaType m;
               m_Config := plainDescriptor (desc_MediaType (m_Config m)) (sum_ConfigFile cfg);
               m_Layers := m_Layers m; m_Annotations := m_Annotations m |}
            cfg ls)
  | Err e, _ | _, Err e => Err e
  end.

(** Modelled from the spec: [mutate.Append], which is not among the
    sources, is the layer append: a fresh, internally consistent image
    with the layer added last, its diff-ID added to the config's diff-ID
    list and its history entry added to the config's history. *)
Definition Append (base : Image) (add : Addendum) : result Image :=
  match img_Manifest base, img_ConfigFile base, img_Layers base with
  | Ok m, Ok cf, Ok ls =>
      match layer_Digest (add_Layer add), layer_DiffID (add_Layer add),
            layer_Size (add_Layer add) with
      | Ok dg, Ok diffID, Ok sz =>
          let cf' :=
            {| cf_Architecture := cf_Architecture cf; cf_OS := cf_OS cf;
               cf_Env := cf_Env cf;
               cf_History := cf_History cf ++ [add_History add];
               cf_DiffIDs := cf_DiffIDs cf ++ [diffID] |} in
          Ok (imageOf
                {| m_MediaType := m_MediaType m;
                   m_Config := plainDescriptor (desc_MediaType (m_Config m))
                                               (sum_ConfigFile cf');
                   m_Layers := m_Layers m ++ [plainDescriptor layer_MediaType (dg, sz)];
                   m_Annotations := m_Annotations m |}
                cf' (ls ++ [add_Layer add]))
      | Err e, _, _ | _, Err e, _ | _, _, Err e => Err e
      end
  | Err e, _, _ | _, Err e, _ | _, _, Err e => Err e
  end.

(** Modelled from the spec: [mutate.Annotations], which is not among the
    sources, is the annotation merge, here on an image: the given
    annotations are laid over those of the manifest. *)
Definition Annotations (img : Image) (anns : gmap string string) : Image :=
  match img_Manifest img, img_ConfigFile img, img_Layers img with
  | Ok m, Ok cf, Ok ls =>
      imageOf
        {| m_MediaType := m_MediaType m; m_Config := m_Config m;
           m_Layers := m_Layers m; m_Annotations := anns ∪ m_Annotations m |}
        cf ls
  | Err e, _, _ | _, Err e, _ | _, _, Err e => brokenImage e
  end.

(** An index none of whose methods succeeds. *)
Definition brokenIndex (e : Error) : ImageIndex :=
  mkImageIndex (Err e) (Err e) (Err e) (Err e) (Err e)
               (fun _ => Err e) (fun _ => Err e) (Err e).

(** Modelled from the spec: [mutate.AppendManifests], which is not among
    the sources, assembles a new index from the addenda, in the same
    order, after the children of [base]. *)
Definition AppendManifests (base : ImageIndex) (adds : list IndexAddendum)
  : ImageIndex :=
  match idx_IndexManifest base, partial.Manifests base with
  | Ok m, Ok children =>
      indexOf
        {| im_MediaType := im_MediaType m;
           im_Manifests := im_Manifests m ++ map add_Descriptor adds;
           im_Annotations := im_Annotations m |}
        (fun h => match resolve adds h with
                  | Some (AnImage img) => Ok img
                  | _ => idx_Image base h
                  end)
        (fun h => match resolve adds h with
                  | Some (AnIndex idx) => Ok idx
                  | _ => idx_ImageIndex base h
                  end)
        (children ++ map Add adds)
  | Err e, _ | _, Err e => brokenIndex e
  end.

(** Modelled from the spec: [mutate.Annotations] on an index. *)
Definition IndexAnnotations (idx : ImageIndex) (anns : gmap string string)
  : ImageIndex :=
  match idx_IndexManifest idx, partial.Manifests idx with
  | Ok m, Ok children =>
      indexOf
        {| im_MediaType := im_MediaType m; im_Manifests := im_Manifests m;
           im_Annotations := anns ∪ im_Annotations m |}
        (idx_Image idx) (idx_ImageIndex idx) children
  | Err e, _ | _, Err e => brokenIndex e
  end.

(** Modelled from the spec: [mutate.IndexMediaType], which is not among
    the sources, is the media-type override of an index. *)
Definition IndexMediaType (idx : ImageIndex) (mt : MediaType) : ImageIndex :=
  match idx_IndexManifest idx, partial.Manifests idx with
  | Ok m, Ok children =>
      indexOf
        {| im_MediaType := mt; im_Manifests := im_Manifests m;
           im_Annotations := im_Annotations m |}
        (idx_Image idx) (idx_ImageIndex idx) children
  | Err e, _ | _, Err e => brokenIndex e
  end.

End WithCodec.
End mutate.

(** ** Package cmd: the writers and the flatten engine (flatten.go) *)

Module cmd.
Section WithDeps.
Context `{V1} `{Codec}.

Definition noop : M unit := ret tt.

(** The interface [ImageWriter] and its two implementations. *)
Record ImageWriter := mkImageWriter {
  WriteImage : Image -> M unit;
  WriteLayer : Layer -> list string -> M unit
}.

Record RemoteWriter := mkRemoteWriter { repo : string }.
Record LocalWriter := mkLocalWriter { dst : string }.

Definition RemoteWriter_WriteLayer (w : RemoteWriter) (layer : Layer)
    (o : list string) : M unit :=
  wrap "uploading layer" (remote.WriteLayer (repo w) layer o).

Definition RemoteWriter_WriteImage (w : RemoteWriter) (_ : Image) : M unit :=
  noop.

(** The error of [layout.Write] is overwritten by that of [AppendImage]. *)
Definition LocalWriter_WriteImage (w : LocalWriter) (img : Image) : M unit :=
  fun σ =>
    let '((p, err), σ1) := layout.Write (dst w) empty.Index σ in
    layout.AppendImage p img σ1.

Definition LocalWriter_WriteLayer (w : LocalWriter) (_ : Layer)
    (_ : list string) : M unit :=
  noop.

Definition remoteWriter (w : RemoteWriter) : ImageWriter :=
  {| WriteImage := RemoteWriter_WriteImage w;
     WriteLayer := RemoteWriter_WriteLayer w |}.

Definition localWriter (w : LocalWriter) : ImageWriter :=
  {| WriteImage := LocalWriter_WriteImage w;
     WriteLayer := LocalWriter_WriteLayer w |}.

(** [logs.Warn.Printf] *)
Definition warn (msg : string) : M unit :=
  fun σ => (Ok tt, set_warnings (warnings σ ++ [msg]) σ).

(** [cf.RootFS.DiffIDs = []v1.Hash{}; cf.History = []v1.History{}] on
    the deep copy of the config. *)
Definition cleared (cf : ConfigFile) : ConfigFile :=
  {| cf_Architecture := cf_Architecture cf; cf_OS := cf_OS cf;
     cf_Env := cf_Env cf; cf_History := []; cf_DiffIDs := [] |}.

Definition flattenImage (old : Image) (w : ImageWriter) (use : string)
    (o : crane.Options) : M Describable :=
  let* digest := wrap "getting old digest" (lift (img_Digest old)) in
  let* m := wrap "reading manifest" (lift (img_Manifest old)) in
  let* cf := wrap "getting config" (lift (img_ConfigFile old)) in
  let* oldHistory :=
    match json_Marshal (cf_History cf) with
    | Ok s => ret s
    | Err _ => fail ErrMarshalHistory
    end in
  (* Clear layer-specific config file information. *)
  let cf := cleared cf in
  let* img := wrap "mutating config" (lift (mutate.ConfigFile empty.Image cf)) in
  let layer := stream_NewLayer_Extract old gzip_BestCompression in
  let* _ := wrap "uploading layer" (WriteLayer w layer (crane.opt_Remote o)) in
  let* img :=
    wrap "appending layers"
      (lift (mutate.Append img
               {| add_Layer := layer;
                  add_History :=
                    {| CreatedBy := use +:+ " flatten " +:+ digest;
                       Comment := oldHistory |} |})) in
  (* Retain any annotations from the original image. *)
  let img :=
    if bool_decide (size (m_Annotations m) ≠ 0%nat)
    then mutate.Annotations img (m_Annotations m)
    else img in
  let* _ := wrap "writing img" (WriteImage w img) in
  ret (AnImage img).

(** Drop attestations: [p != nil && p.OS == "unknown" &&
    p.Architecture == "unknown"]. *)
Definition isAttestation (desc : Descriptor) : bool :=
  match desc_Platform desc with
  | Some p => String.eqb (OS p) "unknown" && String.eqb (Architecture p) "unknown"
  | None => false
  end.

Definition withSizeDigest (desc : Descriptor) (sz : Z) (dg : Hash) : Descriptor :=
  {| desc_MediaType := desc_MediaType desc; desc_Size := sz; desc_Digest := dg;
     desc_URLs := desc_URLs desc; desc_Annotations := desc_Annotations desc;
     desc_Platform := desc_Platform desc |}.

(** The [for _, m := range manifests] loop of [flattenIndex];
    [flattenChild] is the body's call [flattenChild(m, w, use, o)]. *)
Section Range.
Variable flattenChild : Describable -> M Describable.

Fixpoint flattenRange (manifests : list Describable) (adds : list IndexAddendum)
  : M (list IndexAddendum) :=
  match manifests with
  | [] => ret adds
  | m :: rest =>
      (* Keep the old descriptor (annotations and whatnot). *)
      let* desc := lift (partial.Descriptor m) in
      if isAttestation desc then flattenRange rest adds
      else
        let* flattened := flattenChild m in
        let* sz := lift (partial.Size flattened) in
        let* dg := lift (partial.Digest flattened) in
        flattenRange rest
          (adds ++ [{| Add := flattened;
                       add_Descriptor := withSizeDigest desc sz dg |}])
  end.
End Range.

Fixpoint flattenIndex (old : ImageIndex) (w : ImageWriter) (use : string)
    (o : crane.Options) {struct old} : M Describable :=
  let* m := lift (idx_IndexManifest old) in
  match partial.Manifests old with
  | Err e => fail e
  | Ok manifests =>
      let* adds :=
        flattenRange (fun m => flattenChild m w use o) manifests [] in
      let idx := mutate.AppendManifests empty.Index adds in
      (* Retain any annotations from the original index. *)
      let idx :=
        if bool_decide (size (im_Annotations m) ≠ 0%nat)
        then mutate.IndexAnnotations idx (im_Annotations m)
        else idx in
      let* mt := lift (idx_MediaType old) in
      let idx := mutate.IndexMediaType idx mt in
      ret (AnIndex idx)
  end
with flattenChild (old : Describable) (w : ImageWriter) (use : string)
    (o : crane.Options) {struct old} : M Describable :=
  match old with
  | AnIndex idx => flattenIndex idx w use o
  | AnImage img => flattenImage img w use o
  | Other a =>
      let* _ := warn "can't flatten, skipping" in
      ret old
  end.

Definition flatten (ref : string) (w : ImageWriter) (use : string)
    (o : crane.Options) : M Describable :=
  let* desc := wrap ("pulling " +:+ ref) (remote.Get ref (crane.opt_Remote o)) in
  if IsIndex (rd_MediaType desc) then
    let* idx := lift (rd_ImageIndex desc) in
    flattenIndex idx w use o
  else if IsImage (rd_MediaType desc) then
    let* img := lift (rd_Image desc) in
    flattenImage img w use o
  else fail (ErrCantFlatten (rd_MediaType desc)).

End WithDeps.
End cmd.

(** ** Package cmd: [push] and the run of the [flatten] subcommand *)

Definition set_manifests (m : gmap string RemoteDescriptor) (σ : World) : World :=
  {| manifests := m; uploads := uploads σ; disk := disk σ; warnings := warnings σ |}.

(** Modelled from the spec: [remote.Write] and [remote.WriteIndex], which
    are not among the sources, push a finished node under a reference,
    or fail. *)
Definition remote_Write (ref : string) (img : Image) (opts : list string) : M unit :=
  fun σ =>
    match img_MediaType img with
    | Ok mt =>
        (Ok tt,
         set_manifests
           (<[ref := {| rd_MediaType := mt;
                        rd_ImageIndex := Err (ErrExternal "not an index");
                        rd_Image := Ok img |}]> (manifests σ)) σ)
    | Err e => (Err e, σ)
    end.

Definition remote_WriteIndex (ref : string) (idx : ImageIndex) (opts : list string)
  : M unit :=
  fun σ =>
    match idx_MediaType idx with
    | Ok mt =>
        (Ok tt,
         set_manifests
           (<[ref := {| rd_MediaType := mt;
                        rd_ImageIndex := Ok idx;
                        rd_Image := Err (ErrExternal "not an image") |}]> (manifests σ)) σ)
    | Err e => (Err e, σ)
    end.

(** A parsed [name.Reference]: how it prints, its repository
    ([Context()]) and whether it is a [name.Digest]. *)
Record Reference := mkReference {
  ref_String : string;
  ref_Context : string;
  ref_IsDigest : bool
}.

(** Package [name], which is not among the sources: parsing a reference
    and the by-digest reference of a repository, taken as parameters. *)
Class Naming := {
  ParseReference : string -> list string -> result Reference;
  repo_Digest : string -> Hash -> Reference
}.

Module flattenCmd.
Section WithDeps.
Context `{V1} `{Codec} `{Naming}.

(** The error of [push]: its own "can't push %T", or that of the
    registry. *)
Inductive PushError :=
| CantPush (flat : Describable)
| PushFailed (e : Error).

Definition push (flat : Describable) (ref : Reference) (o : crane.Options)
  : World -> option PushError * World :=
  fun σ =>
    match flat with
    | AnIndex idx =>
        match remote_WriteIndex (ref_String ref) idx (crane.opt_Remote o) σ with
        | (Ok _, σ') => (None, σ')
        | (Err e, σ') => (Some (PushFailed e), σ')
        end
    | AnImage img =>
        match remote_Write (ref_String ref) img (crane.opt_Remote o) σ with
        | (Ok _, σ') => (None, σ')
        | (Err e, σ') => (Some (PushFailed e), σ')
        end
    | Other _ => (Some (CantPush flat), σ)
    end.

(** How the command ends: a line on standard output, or [log.Fatalf]. *)
Inductive Cause :=
| NoCause
| Because (e : Error)
| BecausePush (e : PushError).

Inductive Exit :=
| Stdout (line : string)
| Fatal (msg : string) (cause : Cause).

(** The [Run] function of [NewCmdFlatten]: [format] and [dst] are the
    flags [--format] and [--tag], [src] is the one argument, [use] is the
    name of the root command and [parentUse] that of the parent command;
    [fs] is the disk as the layout reader sees it. *)
Definition Run (fs : layout.Disk) (use parentUse : string) (o : crane.Options)
    (format dst src : string) : World -> Exit * World :=
  fun σ =>
    if String.eqb format "oci" then
      if String.eqb dst "" then (Fatal "--dst is required" NoCause, σ)
      else if String.eqb src dst then
        (Fatal "destructive operation, [source] and [tag] must be different" NoCause, σ)
      else
        match layout.FromPath fs src with
        | Err e => (Fatal ("parsing " +:+ src) (Because e), σ)
        | Ok path =>
            match layout.path_ImageIndex fs path with
            | Err e => (Fatal "reading" (Because e), σ)
            | Ok idx =>
                let writer := cmd.localWriter {| cmd.dst := dst |} in
                match cmd.flattenIndex idx writer use o σ with
                | (Err e, σ') => (Fatal "flattening" (Because e), σ')
                | (Ok _, σ') => (Stdout dst, σ')
                end
            end
        end
    else
      (* If the new ref isn't provided, write over the original image. *)
      let dst := if String.eqb dst "" then src else dst in
      match ParseReference src (crane.opt_Name o) with
      | Err e => (Fatal ("parsing " +:+ src) (Because e), σ)
      | Ok ref =>
          match ParseReference dst (crane.opt_Name o) with
          | Err e => (Fatal ("parsing " +:+ dst) (Because e), σ)
          | Ok newRef =>
              let repo := ref_Context newRef in
              let writer := cmd.remoteWriter {| cmd.repo := repo |} in
              match cmd.flatten (ref_String ref) writer parentUse o σ with
              | (Err e, σ1) =>
                  (Fatal ("flattening " +:+ ref_String ref) (Because e), σ1)
              | (Ok flat, σ1) =>
                  match partial.Digest flat with
                  | Err e => (Fatal "digesting new image" (Because e), σ1)
                  | Ok digest =>
                      let newRef :=
                        if ref_IsDigest ref then repo_Digest repo digest
                        else newRef in
                      match push flat newRef o σ1 with
                      | (Some e, σ2) =>
                          (Fatal ("pushing " +:+ ref_String newRef) (BecausePush e), σ2)
                      | (None, σ2) =>
                          (Stdout (ref_String (repo_Digest repo digest)), σ2)
                      end
                  end
              end
          end
      end.

End WithDeps.
End flattenCmd.

(** ** Concrete collaborators and sample trees for the examples *)

Definition OCIImageIndex : MediaType := "application/vnd.oci.image.index.v1+json".
Definition OCIManifestSchema1 : MediaType := "application/vnd.oci.image.manifest.v1+json".
Definition OCILayer : MediaType := "application/vnd.oci.image.layer.v1.tar+gzip".
Definition OCIConfigJSON : MediaType := "application/vnd.oci.image.config.v1+json".
Definition DockerManifestList : MediaType := "application/vnd.docker.distribution.manifest.list.v2+json".
Definition DockerManifestSchema2 : MediaType := "application/vnd.docker.distribution.manifest.v2+json".

(** Modelled from the spec: package [types] and [Platform.Equals] are not
    among the sources.  A media type is index-shaped or image-shaped when
    it is the OCI or the Docker one; a platform is the tuple of OS,
    architecture and variant.  The examples use this instance; the
    theorems hold for every [V1]. *)
Definition ociV1 : V1 :=
  {| IsIndex mt := String.eqb mt OCIImageIndex || String.eqb mt DockerManifestList;
     IsImage mt := String.eqb mt OCIManifestSchema1 || String.eqb mt DockerManifestSchema2;
     Equals p q := String.eqb (OS p) (OS q)
                   && String.eqb (Architecture p) (Architecture q)
                   && String.eqb (Variant p) (Variant q) |}.

Definition linuxAmd64 : Platform := crane.defaultPlatform.

Definition sampleImage (name : string) : Image :=
  {| img_MediaType := Ok OCIManifestSchema1;
     img_Digest := Ok ("sha256:" +:+ name);
     img_Size := Ok 7;
     img_Descriptor :=
       Ok {| desc_MediaType := OCIManifestSchema1; desc_Size := 7;
             desc_Digest := "sha256:" +:+ name; desc_URLs := [];
             desc_Annotations := ∅; desc_Platform := Some linuxAmd64 |};
     img_Manifest :=
       Ok {| m_MediaType := OCIManifestSchema1;
             m_Config := plainDescriptor OCIConfigJSON ("sha256:config-" +:+ name, 2);
             m_Layers := []; m_Annotations := ∅ |};
     img_ConfigFile :=
       Ok {| cf_Architecture := "amd64"; cf_OS := "linux"; cf_Env := [];
             cf_History := []; cf_DiffIDs := [] |};
     img_Layers := Ok [] |}.

(** The descriptor an index lists for an image-shaped child. *)
Definition imageDescriptor (name : string) (p : option Platform) : Descriptor :=
  {| desc_MediaType := OCIManifestSchema1; desc_Size := 7;
     desc_Digest := "sha256:" +:+ name; desc_URLs := [];
     desc_Annotations := ∅; desc_Platform := p |}.

(** The descriptor an index lists for an index-shaped child. *)
Definition indexDescriptor (name : string) : Descriptor :=
  {| desc_MediaType := OCIImageIndex; desc_Size := 9;
     desc_Digest := "sha256:" +:+ name; desc_URLs := [];
     desc_Annotations := ∅; desc_Platform := None |}.

(** An index read from a layout: the manifest lists [ms]; images are
    stored under their names; [sub], when given, is the one nested index,
    stored under the name [inner]. *)
Definition sampleIndex (ms : list Descriptor) (images : list string)
    (sub : option ImageIndex) : ImageIndex :=
  mkImageIndex
    (Ok OCIImageIndex) (Ok "sha256:index") (Ok 9)
    (Ok (indexDescriptor "index"))
    (Ok {| im_MediaType := OCIImageIndex; im_Manifests := ms; im_Annotations := ∅ |})
    (fun h => match list_find (fun n => "sha256:" +:+ n = h) images with
              | Some (_, n) => Ok (sampleImage n)
              | None => notFound h
              end)
    (fun h => match sub with
              | Some s => if String.eqb h "sha256:inner" then Ok s else notFound h
              | None => notFound h
              end)
    (Ok (match sub with Some s => [AnIndex s] | None => [] end
         ++ map (fun n => AnImage (sampleImage n)) images)).

(** An index whose only child is the image [leaf], for linux/amd64. *)
Definition leafIndex : ImageIndex :=
  sampleIndex [imageDescriptor "leaf" (Some linuxAmd64)] ["leaf"] None.

(** [nested n]: [n] indices, each the only child of the one above it,
    around [leafIndex]: [n + 1] levels of index. *)
Fixpoint nested (n : nat) : ImageIndex :=
  match n with
  | O => leafIndex
  | S k => sampleIndex [indexDescriptor "inner"] [] (Some (nested k))
  end.

Definition forPlatform `{V1} (p : Platform) : Matcher :=
  fun m => match desc_Platform m with
           | Some q => Equals q p
           | None => false
           end.

Definition readOptions : crane.Options :=
  {| crane.opt_Name := []; crane.opt_Remote := [];
     crane.opt_Platform := Some linuxAmd64 |}.

Definition armPlatform : Platform :=
  {| Architecture := "arm64"; OS := "linux"; Variant := "v8" |}.

(** An index whose second child is an index with no children and whose
    third child is the image asked for. *)
Definition detourIndex : ImageIndex :=
  sampleIndex
    [imageDescriptor "other" (Some armPlatform); indexDescriptor "inner";
     imageDescriptor "leaf" (Some linuxAmd64)]
    ["other"; "leaf"]
    (Some (sampleIndex [] [] None)).

(** The matcher for linux/amd64. *)
Definition linuxMatcher : Matcher := @forPlatform ociV1 linuxAmd64.

(** An index whose first child is the image asked for and whose second
    child is an image-shaped descriptor without a platform. *)
Definition matchFirstIndex : ImageIndex :=
  sampleIndex
    [imageDescriptor "leaf" (Some linuxAmd64); imageDescriptor "bare" None]
    ["leaf"; "bare"] None.

(** An index whose second child is an image-shaped descriptor without a
    platform, after an image for another platform. *)
Definition barePlatformIndex : ImageIndex :=
  sampleIndex
    [imageDescriptor "other" (Some armPlatform); imageDescriptor "bare" None;
     imageDescriptor "leaf" (Some linuxAmd64)]
    ["other"; "bare"; "leaf"] None.

(** A disk holding one layout. *)
Definition diskWith (path : string) (idx : ImageIndex) : layout.Disk :=
  {| layout.os_Stat := fun f =>
       if String.eqb f (path +:+ "/index.json") then Ok tt
       else Err (ErrExternal ("stat " +:+ f +:+ ": no such file or directory"));
     layout.path_ImageIndex := fun q =>
       if String.eqb q path then Ok idx
       else Err (ErrExternal ("open " +:+ q +:+ "/index.json: no such file or directory")) |}.

(** A codec for the examples: digests are made of the names of what is
    hashed.  The theorems hold for every [Codec]. *)
Definition toyCodec : Codec :=
  {| stream_NewLayer_Extract img level :=
       {| layer_Digest := Ok "sha256:flat"; layer_DiffID := Ok "sha256:flat-diff";
          layer_Size := Ok 11 |};
     json_Marshal hs := Ok (String.concat "," (map CreatedBy hs));
     sum_Manifest m :=
       ("sha256:m-" +:+ String.concat "-" (map desc_Digest (m_Layers m)),
        Z.of_nat (length (m_Layers m)));
     sum_IndexManifest m :=
       ("sha256:i-" +:+ String.concat "-" (map desc_Digest (im_Manifests m)),
        Z.of_nat (length (im_Manifests m)));
     sum_ConfigFile cf :=
       ("sha256:c-" +:+ String.concat "-" (cf_DiffIDs cf),
        Z.of_nat (length (cf_DiffIDs cf)));
     empty_Image_MediaType := DockerManifestSchema2;
     empty_Config_MediaType := OCIConfigJSON;
     layer_MediaType := OCILayer;
     empty_Index_MediaType := OCIImageIndex |}.

Definition emptyWorld : World :=
  {| manifests := ∅; uploads := ∅; disk := ∅; warnings := [] |}.

(** A registry with one repository that accepts uploads. *)
Definition registryWorld : World :=
  {| manifests := ∅; uploads := {[ "example.com/repo" := [] ]}; disk := ∅;
     warnings := [] |}.

Definition storedLayer (name : string) : Layer :=
  {| layer_Digest := Ok ("sha256:" +:+ name);
     layer_DiffID := Ok ("sha256:diff-" +:+ name);
     layer_Size := Ok 100 |}.

Definition sourceAnnotations : gmap string string :=
  {[ "org.opencontainers.image.source" := "https://example.com/src" ]}.

(** An image of two layers whose manifest is annotated. *)
Definition layeredImage : Image :=
  {| img_MediaType := Ok OCIManifestSchema1;
     img_Digest := Ok "sha256:layered";
     img_Size := Ok 7;
     img_Descriptor := Ok (imageDescriptor "layered" (Some linuxAmd64));
     img_Manifest :=
       Ok {| m_MediaType := OCIManifestSchema1;
             m_Config := plainDescriptor OCIConfigJSON ("sha256:config-layered", 2);
             m_Layers := [plainDescriptor OCILayer ("sha256:base", 100);
                          plainDescriptor OCILayer ("sha256:app", 100)];
             m_Annotations := sourceAnnotations |};
     img_ConfigFile :=
       Ok {| cf_Architecture := "amd64"; cf_OS := "linux"; cf_Env := ["PATH=/bin"];
             cf_History := [{| CreatedBy := "ADD base"; Comment := "" |};
                            {| CreatedBy := "COPY app"; Comment := "" |}];
             cf_DiffIDs := ["sha256:diff-base"; "sha256:diff-app"] |};
     img_Layers := Ok [storedLayer "base"; storedLayer "app"] |}.

Definition toRepo : cmd.ImageWriter :=
  @cmd.remoteWriter {| cmd.repo := "example.com/repo" |}.

Definition toLayout : cmd.ImageWriter :=
  @cmd.localWriter toyCodec {| cmd.dst := "out" |}.

Definition unknownPlatform : Platform :=
  {| Architecture := "unknown"; OS := "unknown"; Variant := "" |}.

(** [layeredImage] as the child [name] of an index, listed there for
    platform [p]. *)
Definition childImage (name : string) (p : option Platform) : Image :=
  {| img_MediaType := img_MediaType layeredImage;
     img_Digest := Ok ("sha256:" +:+ name);
     img_Size := img_Size layeredImage;
     img_Descriptor :=
       Ok {| desc_MediaType := OCIManifestSchema1; desc_Size := 7;
             desc_Digest := "sha256:" +:+ name;
             desc_URLs := ["https://mirror.example.com/" +:+ name];
             desc_Annotations := {[ "child" := name ]};
             desc_Platform := p |};
     img_Manifest := img_Manifest layeredImage;
     img_ConfigFile := img_ConfigFile layeredImage;
     img_Layers := img_Layers layeredImage |}.

Definition multiChildren : list Describable :=
  [AnImage (childImage "amd" (Some linuxAmd64));
   AnImage (childImage "att" (Some unknownPlatform));
   AnImage (childImage "arm" (Some armPlatform))].

(** A Docker manifest list with top-level annotations: an image for
    linux/amd64, an attestation, an image for linux/arm64. *)
Definition multiIndex : ImageIndex :=
  mkImageIndex
    (Ok DockerManifestList) (Ok "sha256:multi") (Ok 9)
    (Ok (indexDescriptor "multi"))
    (Ok {| im_MediaType := DockerManifestList;
           im_Manifests :=
             [imageDescriptor "amd" (Some linuxAmd64);
              imageDescriptor "att" (Some unknownPlatform);
              imageDescriptor "arm" (Some armPlatform)];
           im_Annotations := sourceAnnotations |})
    notFound notFound
    (Ok multiChildren).

(** Images committed to one local sink, one after another; the first
    failure ends the sequence. *)
Fixpoint commitAll `{Codec} (w : cmd.LocalWriter) (imgs : list Image) : M unit :=
  match imgs with
  | [] => ret tt
  | img :: rest =>
      let* _ := cmd.LocalWriter_WriteImage w img in
      commitAll w rest
  end.

(** What [index.json] of the layout at [path] lists; nothing when there
    is no layout. *)
Definition listed (path : string) (σ : World) : list Descriptor :=
  match disk σ !! path with
  | Some l => index_json l
  | None => []
  end.

(** The descriptor [AppendImage] lists for an image. *)
Definition describes (img : Image) (d : Descriptor) : Prop :=
  exists mt sz dg,
    img_MediaType img = Ok mt /\ img_Size img = Ok sz /\ img_Digest img = Ok dg
    /\ d = plainDescriptor mt (dg, sz).

(** A bare layer attached to an index: neither an image nor an index. *)
Definition layerArtifact : Artifact :=
  {| art_MediaType := Ok OCILayer;
     art_Digest := Ok "sha256:blob";
     art_Size := Ok 100;
     art_Descriptor := Ok (plainDescriptor OCILayer ("sha256:blob", 100)) |}.

(** An index of one image and one bare layer. *)
Definition attachedIndex : ImageIndex :=
  mkImageIndex
    (Ok OCIImageIndex) (Ok "sha256:attached") (Ok 9)
    (Ok (indexDescriptor "attached"))
    (Ok {| im_MediaType := OCIImageIndex;
           im_Manifests :=
             [imageDescriptor "amd" (Some linuxAmd64);
              plainDescriptor OCILayer ("sha256:blob", 100)];
           im_Annotations := ∅ |})
    notFound notFound
    (Ok [AnImage (childImage "amd" (Some linuxAmd64)); Other layerArtifact]).

(** A registry where the reference [example.com/repo:blob] names a bare
    layer. *)
Definition blobWorld : World :=
  {| manifests :=
       {[ "example.com/repo:blob" :=
            {| rd_MediaType := OCILayer;
               rd_ImageIndex := Err (ErrExternal "not an index");
               rd_Image := Err (ErrExternal "not an image") |} ]};
     uploads := {[ "example.com/repo" := [] ]}; disk := ∅; warnings := [] |}.

(** The loop of [flattenIndex] as a relation between the children and
    the addenda it makes of them: a child marked unknown/unknown is
    dropped, any other child is flattened and its descriptor carried over
    with size and digest read from the flattened child. *)
Inductive ranged (f : Describable -> M Describable)
  : list Describable -> list IndexAddendum -> Prop :=
| ranged_nil : ranged f [] []
| ranged_drop c d cs adds :
    partial.Descriptor c = Ok d ->
    cmd.isAttestation d = true ->
    ranged f cs adds ->
    ranged f (c :: cs) adds
| ranged_keep c d cs a adds σa σb :
    partial.Descriptor c = Ok d ->
    cmd.isAttestation d = false ->
    f c σa = (Ok (Add a), σb) ->
    partial.Size (Add a) = Ok (desc_Size (add_Descriptor a)) ->
    partial.Digest (Add a) = Ok (desc_Digest (add_Descriptor a)) ->
    add_Descriptor a
    = cmd.withSizeDigest d (desc_Size (add_Descriptor a))
                           (desc_Digest (add_Descriptor a)) ->
    ranged f cs adds ->
    ranged f (c :: cs) (a :: adds).

(** [reaches idx idx']: [idx'] is [idx] itself or an index that an index
    reached from [idx] resolves by digest. *)
Inductive reaches : ImageIndex -> ImageIndex -> Prop :=
| reaches_here idx : reaches idx idx
| reaches_below idx h sub idx' :
    idx_ImageIndex idx h = Ok sub -> reaches sub idx' -> reaches idx idx'.

(** What [find] returns where [walk] returns [r]: [find] has no nil
    result, it fails with "cannot find image" instead. *)
Definition asFind (p : option Platform) (r : result (option Image)) : outcome Image :=
  match r with
  | Ok (Some img) => Returns (Ok img)
  | Ok None => Returns (Err (ErrCannotFind p))
  | Err e => Returns (Err e)
  end.

(** An index whose only child is an image for linux/arm64. *)
Definition armOnlyIndex : ImageIndex :=
  sampleIndex [imageDescriptor "other" (Some armPlatform)] ["other"] None.

(** An index whose media type cannot be read, with one image. *)
Definition untypedIndex : ImageIndex :=
  mkImageIndex
    (Err (ErrExternal "media type: unexpected end of JSON input"))
    (Ok "sha256:untyped") (Ok 9)
    (Ok (indexDescriptor "untyped"))
    (Ok {| im_MediaType := OCIImageIndex;
           im_Manifests := [imageDescriptor "amd" (Some linuxAmd64)];
           im_Annotations := ∅ |})
    notFound notFound
    (Ok [AnImage (childImage "amd" (Some linuxAmd64))]).

(** An index of attestations only. *)
Definition attestationIndex : ImageIndex :=
  mkImageIndex
    (Ok OCIImageIndex) (Ok "sha256:attestations") (Ok 9)
    (Ok (indexDescriptor "attestations"))
    (Ok {| im_MediaType := OCIImageIndex;
           im_Manifests := [imageDescriptor "att" (Some unknownPlatform)];
           im_Annotations := ∅ |})
    notFound notFound
    (Ok [AnImage (childImage "att" (Some unknownPlatform))]).

Definition noOptions : crane.Options :=
  {| crane.opt_Name := []; crane.opt_Remote := []; crane.opt_Platform := None |}.

(** An image whose digest cannot be read. *)
Definition digestlessImage : Image :=
  {| img_MediaType := img_MediaType layeredImage;
     img_Digest := Err (ErrExternal "digest: unexpected end of JSON input");
     img_Size := img_Size layeredImage;
     img_Descriptor := img_Descriptor layeredImage;
     img_Manifest := img_Manifest layeredImage;
     img_ConfigFile := img_ConfigFile layeredImage;
     img_Layers := img_Layers layeredImage |}.

Fixpoint hasAt (s : string) : bool :=
  match s with
  | EmptyString => false
  | String c rest => String.eqb (String c EmptyString) "@" || hasAt rest
  end.

(** A parser for the examples: every reference is of the repository
    [example.com/repo]; one with an [@] is by digest. *)
Definition toyNaming : Naming :=
  {| ParseReference s _ :=
       Ok {| ref_String := s; ref_Context := "example.com/repo";
             ref_IsDigest := hasAt s |};
     repo_Digest repo d :=
       {| ref_String := repo +:+ "@" +:+ d; ref_Context := repo;
          ref_IsDigest := true |} |}.

(** A registry that holds [layeredImage] under a digest. *)
Definition pulledWorld : World :=
  {| manifests :=
       {[ "example.com/repo@sha256:layered" :=
            {| rd_MediaType := OCIManifestSchema1;
               rd_ImageIndex := Err (ErrExternal "not an index");
               rd_Image := Ok layeredImage |} ]};
     uploads := {[ "example.com/repo" := [] ]}; disk := ∅; warnings := [] |}.

(** [c] keeps [P]: whatever [c] returns, [P] holds after it if it held
    before. *)
Definition preserves {A} (P : World -> Prop) (c : M A) : Prop :=
  forall σ, P σ -> P (c σ).2.

(** * Properties *)

(** ** The platform-resolving walkers *)

Section Walkers.
Context `{V1}.

Lemma walk_unfold idx matcher depth :
  layout.walk idx matcher depth =
  if bool_decide (depth >= layout.maxDepth) then Err (ErrMaxDepth depth)
  else
    match idx_IndexManifest idx with
    | Err e => Err (Errorf "reading manifest" e)
    | Ok manifest =>
        layout.walkRange idx matcher
          (fun subIdx => layout.walk subIdx matcher (depth + 1))
          (im_Manifests manifest)
    end.
Proof. destruct idx; reflexivity. Qed.

Lemma find_unfold idx o :
  crane.find idx o =
  match idx_IndexManifest idx with
  | Err e => Returns (Err (Errorf "reading manifest" e))
  | Ok manifest =>
      crane.findRange idx o (fun subIdx => crane.find subIdx o)
                      (im_Manifests manifest)
  end.
Proof. destruct idx; reflexivity. Qed.

(** At the ceiling [walk] fails before it reads anything. *)
Lemma walk_at_ceiling idx matcher depth :
  depth >= layout.maxDepth ->
  layout.walk idx matcher depth = Err (ErrMaxDepth depth).
Proof.
  intros Hd. rewrite walk_unfold.
  rewrite bool_decide_eq_true_2; [reflexivity | exact Hd].
Qed.

Lemma walkRange_skips idx matcher descend pre rest :
  Forall (fun m => layout.walkSkips matcher m = true) pre ->
  layout.walkRange idx matcher descend (pre ++ rest) =
  layout.walkRange idx matcher descend rest.
Proof.
  induction 1 as [|m pre Hm _ IH]; [reflexivity|].
  cbn [app layout.walkRange].
  unfold layout.walkSkips in Hm.
  apply andb_true_iff in Hm as [Hi Hm].
  apply negb_true_iff in Hi. rewrite Hi.
  apply negb_true_iff in Hm.
  destruct (IsImage (desc_MediaType m)); [|exact IH].
  cbn in Hm. rewrite Hm. exact IH.
Qed.

Lemma findRange_skips idx o descend pre rest :
  Forall (fun m => crane.findSkips o m = true) pre ->
  crane.findRange idx o descend (pre ++ rest) =
  crane.findRange idx o descend rest.
Proof.
  induction 1 as [|m pre Hm _ IH]; [reflexivity|].
  cbn [app crane.findRange].
  unfold crane.findSkips in Hm.
  apply andb_true_iff in Hm as [Hi Hm].
  apply negb_true_iff in Hi. rewrite Hi.
  destruct (IsImage (desc_MediaType m)); [|exact IH].
  destruct (desc_Platform m) as [mp|]; [|discriminate].
  destruct (crane.opt_Platform o) as [op|]; [|discriminate].
  apply negb_true_iff in Hm. rewrite Hm. exact IH.
Qed.

End Walkers.

(** C9.  When the scan of an index reaches an index-shaped child [m] (the
    children before it are passed over), both walkers return whatever
    the descent into [m] returns, a failed lookup of [m] included.  The
    children [post] after [m] play no part in the result, also when the
    descent finds no image. *)
Theorem first_nested_index_wins `{V1} idx matcher o depth manifest pre m post :
  idx_IndexManifest idx = Ok manifest ->
  im_Manifests manifest = pre ++ m :: post ->
  IsIndex (desc_MediaType m) = true ->
  (depth < layout.maxDepth ->
   Forall (fun c => layout.walkSkips matcher c = true) pre ->
   layout.walk idx matcher depth =
   match idx_ImageIndex idx (desc_Digest m) with
   | Err e => Err (Errorf ("reading index " +:+ desc_Digest m) e)
   | Ok subIdx => layout.walk subIdx matcher (depth + 1)
   end)
  /\
  (Forall (fun c => crane.findSkips o c = true) pre ->
   crane.find idx o =
   match idx_ImageIndex idx (desc_Digest m) with
   | Err e => Returns (Err (Errorf ("reading index " +:+ desc_Digest m) e))
   | Ok subIdx => crane.find subIdx o
   end).
Proof.
  intros Hman Hms Hidx. split.
  - intros Hd Hpre. rewrite walk_unfold.
    rewrite bool_decide_eq_false_2 by lia.
    rewrite Hman, Hms, walkRange_skips by exact Hpre.
    cbn [layout.walkRange]. rewrite Hidx. reflexivity.
  - intros Hpre. rewrite find_unfold.
    rewrite Hman, Hms, findRange_skips by exact Hpre.
    cbn [crane.findRange]. rewrite Hidx. reflexivity.
Qed.

Lemma first_nested_index_wins_witness :
  @layout.walk ociV1 detourIndex linuxMatcher 0 = Ok None
  /\ @crane.find ociV1 detourIndex readOptions
     = Returns (Err (ErrCannotFind (Some linuxAmd64))).
Proof.
  destruct (@first_nested_index_wins ociV1 detourIndex linuxMatcher
              readOptions 0
              {| im_MediaType := OCIImageIndex;
                 im_Manifests :=
                   [imageDescriptor "other" (Some armPlatform);
                    indexDescriptor "inner";
                    imageDescriptor "leaf" (Some linuxAmd64)];
                 im_Annotations := ∅ |}
              [imageDescriptor "other" (Some armPlatform)]
              (indexDescriptor "inner")
              [imageDescriptor "leaf" (Some linuxAmd64)]
              eq_refl eq_refl eq_refl) as [Hwalk Hfind].
  split.
  - rewrite Hwalk.
    + reflexivity.
    + reflexivity.
    + repeat constructor.
  - rewrite Hfind.
    + reflexivity.
    + repeat constructor.
Defined.

(** C10, as stated, fails: an index can hold an image-shaped child
    without a platform and [find], called as [Read] calls it, still
    returns an image, because an earlier child ends the scan. *)
Lemma nil_platform_not_always_reached :
  (exists manifest m,
     idx_IndexManifest matchFirstIndex = Ok manifest
     /\ In m (im_Manifests manifest)
     /\ @IsImage ociV1 (desc_MediaType m) = true
     /\ desc_Platform m = None)
  /\ @crane.find ociV1 matchFirstIndex readOptions = Returns (Ok (sampleImage "leaf"))
  /\ @crane.Read ociV1 (diskWith "img" matchFirstIndex) "img"
       {| crane.opt_Name := []; crane.opt_Remote := []; crane.opt_Platform := None |}
     = Returns (Ok (sampleImage "leaf")).
Proof.
  split; [|split; reflexivity].
  eexists _, (imageDescriptor "bare" None).
  split; [reflexivity|]. split; [right; left; reflexivity|]. split; reflexivity.
Qed.

(** C10, amended.  When the scan of [find] reaches an image-shaped child
    whose platform is absent (the children before it are passed over),
    [find] panics on the nil dereference: it returns neither an image nor
    an error. *)
Theorem find_nil_platform_panics `{V1} idx o manifest pre m post :
  idx_IndexManifest idx = Ok manifest ->
  im_Manifests manifest = pre ++ m :: post ->
  Forall (fun c => crane.findSkips o c = true) pre ->
  IsIndex (desc_MediaType m) = false ->
  IsImage (desc_MediaType m) = true ->
  desc_Platform m = None ->
  crane.find idx o = Panics nilDeref.
Proof.
  intros Hman Hms Hpre Hidx Himg Hp. rewrite find_unfold.
  rewrite Hman, Hms, findRange_skips by exact Hpre.
  cbn [crane.findRange]. rewrite Hidx, Himg, Hp. reflexivity.
Qed.

Lemma find_nil_platform_panics_witness :
  @crane.find ociV1 barePlatformIndex readOptions = Panics nilDeref.
Proof.
  apply (@find_nil_platform_panics ociV1 barePlatformIndex readOptions
           {| im_MediaType := OCIImageIndex;
              im_Manifests :=
                [imageDescriptor "other" (Some armPlatform);
                 imageDescriptor "bare" None;
                 imageDescriptor "leaf" (Some linuxAmd64)];
              im_Annotations := ∅ |}
           [imageDescriptor "other" (Some armPlatform)]
           (imageDescriptor "bare" None)
           [imageDescriptor "leaf" (Some linuxAmd64)]);
    try reflexivity.
  repeat constructor.
Defined.

(** [Read] passes the panic of [find] on. *)
Lemma Read_nil_platform_panics `{V1} fs p o idx manifest pre m post :
  layout.os_Stat fs (p +:+ "/index.json") = Ok tt ->
  layout.path_ImageIndex fs p = Ok idx ->
  idx_IndexManifest idx = Ok manifest ->
  im_Manifests manifest = pre ++ m :: post ->
  crane.opt_Platform o = None ->
  Forall (fun c =>
            crane.findSkips
              {| crane.opt_Name := crane.opt_Name o;
                 crane.opt_Remote := crane.opt_Remote o;
                 crane.opt_Platform := Some crane.defaultPlatform |} c = true) pre ->
  IsIndex (desc_MediaType m) = false ->
  IsImage (desc_MediaType m) = true ->
  desc_Platform m = None ->
  crane.Read fs p o = Panics nilDeref.
Proof.
  intros Hstat Hidx Hman Hms Ho Hpre Hi Him Hp.
  unfold crane.Read, layout.FromPath. rewrite Hstat, Hidx, Ho.
  assert (Hfind : crane.find idx
            {| crane.opt_Name := crane.opt_Name o;
               crane.opt_Remote := crane.opt_Remote o;
               crane.opt_Platform := Some crane.defaultPlatform |} = Panics nilDeref).
  { rewrite find_unfold, Hman, Hms, findRange_skips by exact Hpre.
    cbn [crane.findRange]. rewrite Hi, Him, Hp. reflexivity. }
  rewrite Hfind. reflexivity.
Qed.

(** ** The depth ceiling *)

Lemma walk_nested_step k d :
  d < layout.maxDepth ->
  @layout.walk ociV1 (nested (S k)) linuxMatcher d
  = @layout.walk ociV1 (nested k) linuxMatcher (d + 1).
Proof.
  intros Hd. rewrite (@walk_unfold ociV1 (nested (S k))).
  rewrite bool_decide_eq_false_2 by lia. reflexivity.
Qed.

(** [walk] gives up on the nested index that sits at depth 10. *)
Lemma walk_nested_too_deep n d :
  0 <= d <= layout.maxDepth ->
  d + Z.of_nat n >= layout.maxDepth ->
  @layout.walk ociV1 (nested n) linuxMatcher d = Err (ErrMaxDepth layout.maxDepth).
Proof.
  revert d. induction n as [|k IH]; intros d Hd Hn.
  - assert (d = layout.maxDepth) as -> by lia.
    apply walk_at_ceiling. lia.
  - destruct (decide (d = layout.maxDepth)) as [->|Hne].
    + apply walk_at_ceiling. lia.
    + rewrite walk_nested_step by lia. apply IH; lia.
Qed.

(** Below the ceiling [walk] reaches the leaf. *)
Lemma walk_nested_within n d :
  d + Z.of_nat n < layout.maxDepth ->
  @layout.walk ociV1 (nested n) linuxMatcher d = Ok (Some (sampleImage "leaf")).
Proof.
  revert d. induction n as [|k IH]; intros d Hn.
  - rewrite (@walk_unfold ociV1 (nested 0)).
    rewrite bool_decide_eq_false_2 by lia. reflexivity.
  - rewrite walk_nested_step by lia. apply IH; lia.
Qed.

(** [find] reaches the leaf however deep it lies. *)
Lemma find_nested n :
  @crane.find ociV1 (nested n) readOptions = Returns (Ok (sampleImage "leaf")).
Proof.
  induction n as [|k IH]; [reflexivity|].
  rewrite (@find_unfold ociV1 (nested (S k))). exact IH.
Qed.

(** C2.  On an index nested deeper than the ceiling, with the image asked
    for at the bottom, [walk] of package layout fails with the max-depth
    error, while [find] of package crane, which carries no depth
    counter, descends all the way and returns the image. *)
Theorem depth_ceiling_in_walk_not_in_find (n : nat) :
  (10 <= n)%nat ->
  @layout.walk ociV1 (nested n) linuxMatcher 0 = Err (ErrMaxDepth 10)
  /\ @crane.find ociV1 (nested n) readOptions = Returns (Ok (sampleImage "leaf")).
Proof.
  intros Hn. split.
  - apply walk_nested_too_deep; unfold layout.maxDepth; lia.
  - apply find_nested.
Qed.

Lemma depth_ceiling_in_walk_not_in_find_witness :
  @layout.walk ociV1 (nested 10) linuxMatcher 0 = Err (ErrMaxDepth 10)
  /\ @crane.find ociV1 (nested 10) readOptions = Returns (Ok (sampleImage "leaf")).
Proof.
  apply (depth_ceiling_in_walk_not_in_find 10). lia.
Defined.

(** Nine levels of index around a matching leaf: both walkers return it. *)
Lemma nine_levels_succeed :
  @layout.walk ociV1 (nested 8) linuxMatcher 0 = Ok (Some (sampleImage "leaf"))
  /\ @crane.find ociV1 (nested 8) readOptions = Returns (Ok (sampleImage "leaf")).
Proof.
  split.
  - apply walk_nested_within. unfold layout.maxDepth. lia.
  - apply find_nested.
Qed.

(** ** The monad of effectful calls *)

Lemma bind_Ok {A B} (c : M A) (k : A -> M B) σ b σ' :
  bind c k σ = (Ok b, σ') ->
  exists a σ1, c σ = (Ok a, σ1) /\ k a σ1 = (Ok b, σ').
Proof.
  unfold bind. destruct (c σ) as [[a|e] σ1]; [eauto | discriminate].
Qed.

Lemma wrap_Ok {A} ctx (c : M A) σ a σ' :
  wrap ctx c σ = (Ok a, σ') -> c σ = (Ok a, σ').
Proof.
  unfold wrap. destruct (c σ) as [[a'|e] σ1]; [auto | discriminate].
Qed.

Lemma lift_Ok {A} (r : result A) σ a σ' :
  lift r σ = (Ok a, σ') -> r = Ok a /\ σ' = σ.
Proof. unfold lift. intros [= -> ->]. auto. Qed.

Lemma ret_Ok {A} (x : A) σ a σ' :
  ret x σ = (Ok a, σ') -> a = x /\ σ' = σ.
Proof. unfold ret. intros [= -> ->]. auto. Qed.

(** Take a successful run of a sequence of binds apart, one call at a time. *)
Ltac run_inv H :=
  repeat
    (first
       [ apply bind_Ok in H as (? & ? & ? & H)
       | apply ret_Ok in H as [? ?] ]).

Ltac step_inv H :=
  first [ apply wrap_Ok in H | idtac ];
  first [ apply lift_Ok in H as [H ?]; subst | idtac ].

(** ** The flatten engine: images *)

Section FlattenImage.
Context `{Codec}.

(** What a successful [flattenImage] has read and built. *)
Lemma flattenImage_Ok old w use o σ r σ' :
  cmd.flattenImage old w use o σ = (Ok r, σ') ->
  exists digest m cf oldHistory img1,
    img_Digest old = Ok digest /\ img_Manifest old = Ok m
    /\ img_ConfigFile old = Ok cf
    /\ json_Marshal (cf_History cf) = Ok oldHistory
    /\ mutate.Append
         (imageOf
            {| m_MediaType := empty_Image_MediaType;
               m_Config := plainDescriptor empty_Config_MediaType
                             (sum_ConfigFile (cmd.cleared cf));
               m_Layers := []; m_Annotations := ∅ |}
            (cmd.cleared cf) [])
         {| add_Layer := stream_NewLayer_Extract old gzip_BestCompression;
            add_History := {| CreatedBy := use +:+ " flatten " +:+ digest;
                              Comment := oldHistory |} |} = Ok img1
    /\ r = AnImage (if bool_decide (size (m_Annotations m) ≠ 0%nat)
                    then mutate.Annotations img1 (m_Annotations m) else img1).
Proof.
  intros Hrun. unfold cmd.flattenImage in Hrun.
  apply bind_Ok in Hrun as (digest & σ1 & Hd & Hrun).
  apply wrap_Ok, lift_Ok in Hd as [Hd ->].
  apply bind_Ok in Hrun as (m & σ2 & Hm & Hrun).
  apply wrap_Ok, lift_Ok in Hm as [Hm ->].
  apply bind_Ok in Hrun as (cf & σ3 & Hcf & Hrun).
  apply wrap_Ok, lift_Ok in Hcf as [Hcf ->].
  apply bind_Ok in Hrun as (oldHistory & σ4 & Hh & Hrun).
  destruct (json_Marshal (cf_History cf)) as [s|e] eqn:Hjson; [|discriminate].
  apply ret_Ok in Hh as [-> ->].
  apply bind_Ok in Hrun as (img0 & σ5 & H0 & Hrun).
  apply wrap_Ok, lift_Ok in H0 as [H0 ->].
  injection H0 as <-.
  apply bind_Ok in Hrun as ([] & σ6 & Hup & Hrun).
  apply bind_Ok in Hrun as (img1 & σ7 & H1 & Hrun).
  apply wrap_Ok, lift_Ok in H1 as [H1 ->].
  apply bind_Ok in Hrun as ([] & σ8 & Hwr & Hrun).
  apply ret_Ok in Hrun as [-> ->].
  exists digest, m, cf, s, img1. auto 10.
Qed.

(** The image a successful [flattenImage] returns: the one new layer, its
    diff-ID, the one new history entry, the annotations of the old
    manifest. *)
Lemma flattenImage_shape old w use o σ r σ' :
  cmd.flattenImage old w use o σ = (Ok r, σ') ->
  exists digest m cf oldHistory diffID img m',
    img_Digest old = Ok digest /\ img_Manifest old = Ok m
    /\ img_ConfigFile old = Ok cf
    /\ json_Marshal (cf_History cf) = Ok oldHistory
    /\ layer_DiffID (stream_NewLayer_Extract old gzip_BestCompression) = Ok diffID
    /\ r = AnImage img
    /\ img_Layers img = Ok [stream_NewLayer_Extract old gzip_BestCompression]
    /\ img_ConfigFile img =
       Ok {| cf_Architecture := cf_Architecture cf; cf_OS := cf_OS cf;
             cf_Env := cf_Env cf;
             cf_History := [{| CreatedBy := use +:+ " flatten " +:+ digest;
                               Comment := oldHistory |}];
             cf_DiffIDs := [diffID] |}
    /\ img_Manifest img = Ok m'
    /\ m_Annotations m' = m_Annotations m.
Proof.
  intros Hrun.
  apply flattenImage_Ok in Hrun
    as (digest & m & cf & oldHistory & img1 & Hd & Hm & Hcf & Hj & Happ & ->).
  unfold mutate.Append in Happ. cbn in Happ.
  destruct (layer_Digest _) as [dg|] eqn:Hdg; [|discriminate].
  destruct (layer_DiffID _) as [diffID|] eqn:Hdiff; [|discriminate].
  destruct (layer_Size _) as [sz|] eqn:Hsz; [|discriminate].
  injection Happ as <-.
  case_bool_decide as Hne.
  - eexists digest, m, cf, oldHistory, diffID, _, _.
    repeat (split; [first [eassumption | reflexivity]|]).
    cbn. apply (right_id_L ∅ (∪)).
  - eexists digest, m, cf, oldHistory, diffID, _, _.
    repeat (split; [first [eassumption | reflexivity]|]).
    cbn. symmetry. apply map_size_empty_iff. lia.
Qed.

End FlattenImage.

(** C4.  The image a successful [flattenImage] returns has exactly one
    layer and its config exactly one diff-ID, whatever the layers of the
    input. *)
Theorem flattenImage_single_layer `{Codec} old w use o σ r σ' :
  cmd.flattenImage old w use o σ = (Ok r, σ') ->
  exists img ls cf,
    r = AnImage img
    /\ img_Layers img = Ok ls /\ length ls = 1%nat
    /\ img_ConfigFile img = Ok cf /\ length (cf_DiffIDs cf) = 1%nat.
Proof.
  intros Hrun.
  apply flattenImage_shape in Hrun
    as (digest & m & cf & oldHistory & diffID & img & m'
        & _ & _ & _ & _ & _ & -> & Hls & Hcf & _).
  eexists img, _, _. repeat split; [exact Hls | reflexivity | exact Hcf | reflexivity].
Qed.

Lemma flattenImage_single_layer_witness :
  exists σ' img ls cf,
    @cmd.flattenImage toyCodec layeredImage toRepo "crane" readOptions registryWorld
    = (Ok (AnImage img), σ')
    /\ img_Layers layeredImage = Ok [storedLayer "base"; storedLayer "app"]
    /\ img_Layers img = Ok ls /\ length ls = 1%nat
    /\ img_ConfigFile img = Ok cf /\ length (cf_DiffIDs cf) = 1%nat.
Proof.
  destruct (@cmd.flattenImage toyCodec layeredImage toRepo "crane" readOptions
              registryWorld) as [r σ'] eqn:Hrun.
  assert (Hok : exists img, r = Ok (AnImage img)).
  { vm_compute in Hrun. injection Hrun as <- _. eexists. reflexivity. }
  destruct Hok as [img ->].
  destruct (@flattenImage_single_layer toyCodec layeredImage toRepo "crane"
              readOptions registryWorld (AnImage img) σ' Hrun)
    as (img' & ls & cf & [= <-] & Hls & Hlen & Hcf & Hdiff).
  exists σ', img, ls, cf. auto 10.
Defined.

(** ** The flatten engine: indices *)

Section FlattenIndex.
Context `{Codec}.

Lemma flattenIndex_unfold old w use o :
  cmd.flattenIndex old w use o =
  (let* m := lift (idx_IndexManifest old) in
   match partial.Manifests old with
   | Err e => fail e
   | Ok manifests =>
       let* adds :=
         cmd.flattenRange (fun m => cmd.flattenChild m w use o) manifests [] in
       let idx := mutate.AppendManifests empty.Index adds in
       let idx :=
         if bool_decide (size (im_Annotations m) ≠ 0%nat)
         then mutate.IndexAnnotations idx (im_Annotations m)
         else idx in
       let* mt := lift (idx_MediaType old) in
       let idx := mutate.IndexMediaType idx mt in
       ret (AnIndex idx)
   end).
Proof. destruct old; reflexivity. Qed.

Lemma flattenRange_Ok f ms adds0 σ adds σ' :
  cmd.flattenRange f ms adds0 σ = (Ok adds, σ') ->
  exists kept, adds = adds0 ++ kept /\ ranged f ms kept.
Proof.
  revert adds0 σ. induction ms as [|c cs IH]; intros adds0 σ Hrun.
  - apply ret_Ok in Hrun as [-> ->]. exists []. split; [|constructor].
    symmetry. apply app_nil_r.
  - cbn [cmd.flattenRange] in Hrun.
    apply bind_Ok in Hrun as (d & σ1 & Hd & Hrun).
    apply lift_Ok in Hd as [Hd ->].
    destruct (cmd.isAttestation d) eqn:Hatt.
    + apply IH in Hrun as (kept & -> & Hk).
      exists kept. split; [reflexivity|]. eapply ranged_drop; eassumption.
    + apply bind_Ok in Hrun as (flattened & σ2 & Hf & Hrun).
      apply bind_Ok in Hrun as (sz & σ3 & Hsz & Hrun).
      apply lift_Ok in Hsz as [Hsz ->].
      apply bind_Ok in Hrun as (dg & σ4 & Hdg & Hrun).
      apply lift_Ok in Hdg as [Hdg ->].
      apply IH in Hrun as (kept & -> & Hk).
      exists ({| Add := flattened; add_Descriptor := cmd.withSizeDigest d sz dg |} :: kept).
      split; [rewrite <- app_assoc; reflexivity|].
      eapply ranged_keep; eauto.
Qed.

(** What a successful [flattenIndex] has read and built. *)
Lemma flattenIndex_shape old w use o σ r σ' :
  cmd.flattenIndex old w use o σ = (Ok r, σ') ->
  exists m children mt adds idx m',
    idx_IndexManifest old = Ok m
    /\ partial.Manifests old = Ok children
    /\ idx_MediaType old = Ok mt
    /\ ranged (fun c => cmd.flattenChild c w use o) children adds
    /\ r = AnIndex idx
    /\ idx_MediaType idx = Ok mt
    /\ idx_IndexManifest idx = Ok m'
    /\ im_MediaType m' = mt
    /\ im_Manifests m' = map add_Descriptor adds
    /\ im_Annotations m' = im_Annotations m
    /\ idx_Manifests idx = Ok (map Add adds).
Proof.
  intros Hrun. rewrite flattenIndex_unfold in Hrun.
  apply bind_Ok in Hrun as (m & σ1 & Hm & Hrun).
  apply lift_Ok in Hm as [Hm ->].
  destruct (partial.Manifests old) as [children|e] eqn:Hch; [|discriminate].
  apply bind_Ok in Hrun as (adds & σ2 & Hadds & Hrun).
  apply flattenRange_Ok in Hadds as (kept & -> & Hranged).
  apply bind_Ok in Hrun as (mt & σ3 & Hmt & Hrun).
  apply lift_Ok in Hmt as [Hmt ->].
  apply ret_Ok in Hrun as [-> ->].
  cbn [app] in *.
  case_bool_decide as Hne.
  - eexists m, children, mt, kept, _, _.
    repeat (split; [first [eassumption | reflexivity]|]).
    split; [|reflexivity].
    cbn. apply (right_id_L ∅ (∪)).
  - eexists m, children, mt, kept, _, _.
    repeat (split; [first [eassumption | reflexivity]|]).
    split; [|reflexivity].
    cbn. symmetry. apply map_size_empty_iff. lia.
Qed.

End FlattenIndex.

Section Descriptors.
Context `{Codec}.

(** The addenda list the descriptors of the children that are not marked
    unknown/unknown, in their order. *)
Lemma ranged_descriptors f cs adds :
  ranged f cs adds ->
  exists descs,
    Forall2 (fun c d => partial.Descriptor c = Ok d) cs descs
    /\ Forall2 (fun d' d => exists sz dg, d' = cmd.withSizeDigest d sz dg)
         (map add_Descriptor adds)
         (List.filter (fun d => negb (cmd.isAttestation d)) descs).
Proof.
  induction 1 as [|c d cs adds Hd Hatt _ (descs & Hall & Hkept)
                  |c d cs a adds σa σb Hd Hatt _ _ _ Ha _ (descs & Hall & Hkept)].
  - exists []. split; constructor.
  - exists (d :: descs). split; [constructor; assumption|].
    cbn [List.filter]. rewrite Hatt. exact Hkept.
  - exists (d :: descs). split; [constructor; assumption|].
    cbn [List.filter map]. rewrite Hatt. cbn [negb].
    constructor; [eauto | exact Hkept].
Qed.

(** Each addendum pairs a flattened child with the descriptor of the
    child it comes from, size and digest replaced by those of the
    flattened child. *)
Lemma ranged_carried f cs adds :
  ranged f cs adds ->
  Forall2
    (fun d' c' =>
       exists c d σa σb,
         c ∈ cs /\ partial.Descriptor c = Ok d /\ cmd.isAttestation d = false
         /\ f c σa = (Ok c', σb)
         /\ partial.Size c' = Ok (desc_Size d')
         /\ partial.Digest c' = Ok (desc_Digest d')
         /\ desc_Platform d' = desc_Platform d
         /\ desc_Annotations d' = desc_Annotations d
         /\ desc_MediaType d' = desc_MediaType d
         /\ desc_URLs d' = desc_URLs d)
    (map add_Descriptor adds) (map Add adds).
Proof.
  induction 1 as [|c d cs adds Hd Hatt _ IH
                  |c d cs a adds σa σb Hd Hatt Hf Hsz Hdg Ha _ IH].
  - constructor.
  - eapply Forall2_impl; [exact IH|].
    intros d' c' (c0 & d0 & σ0 & σ1 & Hin & Hrest).
    exists c0, d0, σ0, σ1. split; [right; exact Hin | exact Hrest].
  - cbn [map]. constructor.
    + exists c, d, σa, σb. rewrite Ha at 3 4 5 6.
      split; [left|]. auto 10.
    + eapply Forall2_impl; [exact IH|].
      intros d' c' (c0 & d0 & σ0 & σ1 & Hin & Hrest).
      exists c0, d0, σ0, σ1. split; [right; exact Hin | exact Hrest].
Qed.

End Descriptors.

(** C5.  The descriptors of the index a successful [flattenIndex]
    returns are those of the children of the input, in the same order,
    without exactly the children whose platform is unknown/unknown; each
    is the child's descriptor up to the recomputed size and digest. *)
Theorem flattenIndex_drops_attestations_only `{Codec} old w use o σ r σ' :
  cmd.flattenIndex old w use o σ = (Ok r, σ') ->
  exists children descs idx m,
    partial.Manifests old = Ok children
    /\ Forall2 (fun c d => partial.Descriptor c = Ok d) children descs
    /\ r = AnIndex idx
    /\ idx_IndexManifest idx = Ok m
    /\ Forall2 (fun d' d => exists sz dg, d' = cmd.withSizeDigest d sz dg)
         (im_Manifests m)
         (List.filter (fun d => negb (cmd.isAttestation d)) descs).
Proof.
  intros Hrun.
  apply flattenIndex_shape in Hrun
    as (m0 & children & mt & adds & idx & m
        & _ & Hch & _ & Hranged & -> & _ & Hm & _ & Hms & _).
  apply ranged_descriptors in Hranged as (descs & Hall & Hkept).
  exists children, descs, idx, m. rewrite Hms. auto.
Qed.

Lemma flattenIndex_drops_attestations_only_witness :
  exists σ' idx m,
    @cmd.flattenIndex toyCodec multiIndex toRepo "crane" readOptions registryWorld
    = (Ok (AnIndex idx), σ')
    /\ idx_IndexManifest idx = Ok m
    /\ map desc_Platform (im_Manifests m) = [Some linuxAmd64; Some armPlatform].
Proof.
  destruct (@cmd.flattenIndex toyCodec multiIndex toRepo "crane" readOptions
              registryWorld) as [r σ'] eqn:Hrun.
  assert (Hok : exists idx, r = Ok (AnIndex idx)).
  { vm_compute in Hrun. injection Hrun as <- _. eexists. reflexivity. }
  destruct Hok as [idx ->].
  destruct (@flattenIndex_drops_attestations_only toyCodec multiIndex toRepo
              "crane" readOptions registryWorld (AnIndex idx) σ' Hrun)
    as (children & descs & idx' & m & [= <-] & Hall & [= <-] & Hm & Hkept).
  exists σ', idx, m. split; [reflexivity|]. split; [exact Hm|].
  unfold multiChildren in Hall.
  repeat match goal with
         | Hf : Forall2 _ (_ :: _) _ |- _ =>
             apply Forall2_cons_inv_l in Hf as (? & ? & [= <-] & Hf & ->)
         | Hf : Forall2 _ [] _ |- _ => apply Forall2_nil_inv_l in Hf as ->
         end.
  cbn in Hkept.
  repeat match goal with
         | Hf : Forall2 _ _ (_ :: _) |- _ =>
             apply Forall2_cons_inv_r in Hf as (? & ? & (? & ? & ->) & Hf & ->)
         | Hf : Forall2 _ _ [] |- _ => apply Forall2_nil_inv_r in Hf as ->
         end.
  reflexivity.
Defined.

(** C6.  The index a successful [flattenIndex] returns has the media
    type of the input index, whatever the media type of the blank index
    it is assembled from. *)
Theorem flattenIndex_keeps_media_type `{Codec} old w use o σ r σ' :
  cmd.flattenIndex old w use o σ = (Ok r, σ') ->
  exists idx mt m,
    r = AnIndex idx
    /\ idx_MediaType old = Ok mt
    /\ idx_MediaType idx = Ok mt
    /\ idx_IndexManifest idx = Ok m /\ im_MediaType m = mt.
Proof.
  intros Hrun.
  apply flattenIndex_shape in Hrun
    as (m0 & children & mt & adds & idx & m
        & _ & _ & Hmt & _ & -> & Hmt' & Hm & Hmm & _).
  exists idx, mt, m. auto.
Qed.

Lemma flattenIndex_keeps_media_type_witness :
  exists σ' idx,
    @cmd.flattenIndex toyCodec multiIndex toRepo "crane" readOptions registryWorld
    = (Ok (AnIndex idx), σ')
    /\ idx_MediaType (@empty.Index toyCodec) = Ok OCIImageIndex
    /\ idx_MediaType idx = Ok DockerManifestList.
Proof.
  destruct (@cmd.flattenIndex toyCodec multiIndex toRepo "crane" readOptions
              registryWorld) as [r σ'] eqn:Hrun.
  assert (Hok : exists idx, r = Ok (AnIndex idx)).
  { vm_compute in Hrun. injection Hrun as <- _. eexists. reflexivity. }
  destruct Hok as [idx ->].
  destruct (@flattenIndex_keeps_media_type toyCodec multiIndex toRepo
              "crane" readOptions registryWorld (AnIndex idx) σ' Hrun)
    as (idx' & mt & m & [= <-] & [= <-] & Hmt & _).
  exists σ', idx. auto.
Defined.

(** C7.  When the manifest of the input carries annotations, the node a
    successful [flattenImage] or [flattenIndex] returns carries exactly
    the same annotations. *)
Theorem flatten_keeps_annotations `{Codec} w use o :
  (forall old σ r σ' m,
     cmd.flattenImage old w use o σ = (Ok r, σ') ->
     img_Manifest old = Ok m ->
     m_Annotations m ≠ ∅ ->
     exists img m',
       r = AnImage img /\ img_Manifest img = Ok m'
       /\ m_Annotations m' = m_Annotations m)
  /\
  (forall old σ r σ' m,
     cmd.flattenIndex old w use o σ = (Ok r, σ') ->
     idx_IndexManifest old = Ok m ->
     im_Annotations m ≠ ∅ ->
     exists idx m',
       r = AnIndex idx /\ idx_IndexManifest idx = Ok m'
       /\ im_Annotations m' = im_Annotations m).
Proof.
  split; intros old σ r σ' m Hrun Hold _.
  - apply flattenImage_shape in Hrun
      as (digest & m0 & cf & oldHistory & diffID & img & m'
          & _ & Hm0 & _ & _ & _ & -> & _ & _ & Hm' & Hann).
    rewrite Hold in Hm0. injection Hm0 as <-.
    exists img, m'. auto.
  - apply flattenIndex_shape in Hrun
      as (m0 & children & mt & adds & idx & m'
          & Hm0 & _ & _ & _ & -> & _ & Hm' & _ & _ & Hann & _).
    rewrite Hold in Hm0. injection Hm0 as <-.
    exists idx, m'. auto.
Qed.

Lemma flatten_keeps_annotations_witness :
  (exists σ' img m',
     @cmd.flattenImage toyCodec layeredImage toRepo "crane" readOptions registryWorld
     = (Ok (AnImage img), σ')
     /\ img_Manifest img = Ok m' /\ m_Annotations m' = sourceAnnotations)
  /\
  (exists σ' idx m',
     @cmd.flattenIndex toyCodec multiIndex toRepo "crane" readOptions registryWorld
     = (Ok (AnIndex idx), σ')
     /\ idx_IndexManifest idx = Ok m' /\ im_Annotations m' = sourceAnnotations).
Proof.
  assert (Hne : sourceAnnotations ≠ ∅).
  { intros Heq.
    assert (Hl : sourceAnnotations !! "org.opencontainers.image.source" = None)
      by (rewrite Heq; apply lookup_empty).
    vm_compute in Hl. discriminate. }
  split.
  - destruct (@cmd.flattenImage toyCodec layeredImage toRepo "crane" readOptions
                registryWorld) as [r σ'] eqn:Hrun.
    assert (Hok : exists img, r = Ok (AnImage img)).
    { vm_compute in Hrun. injection Hrun as <- _. eexists. reflexivity. }
    destruct Hok as [img ->].
    destruct (proj1 (@flatten_keeps_annotations toyCodec toRepo "crane" readOptions)
                layeredImage registryWorld (AnImage img) σ' _ Hrun eq_refl Hne)
      as (img' & m' & [= <-] & Hm' & Hann).
    exists σ', img, m'. auto.
  - destruct (@cmd.flattenIndex toyCodec multiIndex toRepo "crane" readOptions
                registryWorld) as [r σ'] eqn:Hrun.
    assert (Hok : exists idx, r = Ok (AnIndex idx)).
    { vm_compute in Hrun. injection Hrun as <- _. eexists. reflexivity. }
    destruct Hok as [idx ->].
    destruct (proj2 (@flatten_keeps_annotations toyCodec toRepo "crane" readOptions)
                multiIndex registryWorld (AnIndex idx) σ' _ Hrun eq_refl Hne)
      as (idx' & m' & [= <-] & Hm' & Hann).
    exists σ', idx, m'. auto.
Defined.

(** C8.  In the index a successful [flattenIndex] returns, the
    descriptor of every child is that of the child of the input it comes
    from: platform, annotations, media type and URLs are the same; size
    and digest are those of the flattened child. *)
Theorem flattenIndex_recomputes_size_digest_only `{Codec} old w use o σ r σ' :
  cmd.flattenIndex old w use o σ = (Ok r, σ') ->
  exists children idx m flat,
    partial.Manifests old = Ok children
    /\ r = AnIndex idx
    /\ idx_IndexManifest idx = Ok m
    /\ partial.Manifests idx = Ok flat
    /\ Forall2
         (fun d' c' =>
            exists c d σa σb,
              c ∈ children /\ partial.Descriptor c = Ok d
              /\ cmd.isAttestation d = false
              /\ cmd.flattenChild c w use o σa = (Ok c', σb)
              /\ partial.Size c' = Ok (desc_Size d')
              /\ partial.Digest c' = Ok (desc_Digest d')
              /\ desc_Platform d' = desc_Platform d
              /\ desc_Annotations d' = desc_Annotations d
              /\ desc_MediaType d' = desc_MediaType d
              /\ desc_URLs d' = desc_URLs d)
         (im_Manifests m) flat.
Proof.
  intros Hrun.
  apply flattenIndex_shape in Hrun
    as (m0 & children & mt & adds & idx & m
        & _ & Hch & _ & Hranged & -> & _ & Hm & _ & Hms & _ & Hflat).
  exists children, idx, m, (map Add adds).
  rewrite Hms. repeat (split; [assumption || reflexivity|]).
  apply (ranged_carried _ _ _ Hranged).
Qed.

Lemma flattenIndex_recomputes_size_digest_only_witness :
  exists σ' idx m,
    @cmd.flattenIndex toyCodec multiIndex toRepo "crane" readOptions registryWorld
    = (Ok (AnIndex idx), σ')
    /\ idx_IndexManifest idx = Ok m
    /\ map desc_URLs (im_Manifests m)
       = [["https://mirror.example.com/amd"]; ["https://mirror.example.com/arm"]]
    /\ map desc_Digest (im_Manifests m) = ["sha256:m-sha256:flat"; "sha256:m-sha256:flat"].
Proof.
  destruct (@cmd.flattenIndex toyCodec multiIndex toRepo "crane" readOptions
              registryWorld) as [r σ'] eqn:Hrun.
  assert (Hok : exists idx m,
             r = Ok (AnIndex idx) /\ idx_IndexManifest idx = Ok m
             /\ map desc_URLs (im_Manifests m)
                = [["https://mirror.example.com/amd"]; ["https://mirror.example.com/arm"]]
             /\ map desc_Digest (im_Manifests m)
                = ["sha256:m-sha256:flat"; "sha256:m-sha256:flat"]).
  { vm_compute in Hrun. injection Hrun as <- _.
    eexists _, _. repeat split; reflexivity. }
  destruct Hok as (idx & m & -> & Hm & Hurls & Hdgs).
  destruct (@flattenIndex_recomputes_size_digest_only toyCodec multiIndex toRepo
              "crane" readOptions registryWorld (AnIndex idx) σ' Hrun)
    as (children & idx' & m' & flat & _ & [= <-] & Hm' & _).
  exists σ', idx, m. auto.
Defined.

(** ** The local sink *)

Section LocalSink.
Context `{Codec}.

(** [layout.Write] of the blank index leaves a layout at [path] that
    lists what was listed there before. *)
Lemma Write_empty path σ :
  exists σ1 l,
    layout.Write path empty.Index σ = ((path, None), σ1)
    /\ disk σ1 !! path = Some l
    /\ index_json l = listed path σ.
Proof.
  unfold layout.Write, listed.
  destruct (disk σ !! path) as [l|] eqn:Hl.
  - exists σ, l. auto.
  - eexists _, _. split; [reflexivity|]. cbn.
    split; [apply lookup_insert_eq | reflexivity].
Qed.

(** A successful [AppendImage] lists the image last. *)
Lemma AppendImage_Ok p img σ u σ' :
  layout.AppendImage p img σ = (Ok u, σ') ->
  exists l d,
    disk σ !! p = Some l /\ describes img d
    /\ listed p σ' = index_json l ++ [d].
Proof.
  unfold layout.AppendImage, listed. intros Hrun.
  destruct (disk σ !! p) as [l|] eqn:Hl; [|discriminate].
  destruct (img_MediaType img) as [mt|] eqn:Hmt; [|discriminate].
  destruct (img_Size img) as [sz|] eqn:Hsz; [|discriminate].
  destruct (img_Digest img) as [dg|] eqn:Hdg; [|discriminate].
  injection Hrun as _ <-. cbn.
  rewrite lookup_insert_eq. cbn.
  exists l, (plainDescriptor mt (dg, sz)).
  split; [reflexivity|]. split; [|reflexivity].
  exists mt, sz, dg. auto.
Qed.

(** A successful commit lists the image last and keeps what was listed. *)
Lemma LocalWriter_WriteImage_Ok w img σ u σ' :
  cmd.LocalWriter_WriteImage w img σ = (Ok u, σ') ->
  exists d, describes img d
            /\ listed (cmd.dst w) σ' = listed (cmd.dst w) σ ++ [d].
Proof.
  unfold cmd.LocalWriter_WriteImage. intros Hrun.
  destruct (Write_empty (cmd.dst w) σ) as (σ1 & l & HW & Hl & Hidx).
  rewrite HW in Hrun.
  apply AppendImage_Ok in Hrun as (l' & d & Hl' & Hd & Hlisted).
  pose proof (eq_trans (eq_sym Hl) Hl') as [= <-].
  exists d. split; [exact Hd|]. rewrite Hlisted, Hidx. reflexivity.
Qed.

(** A successful sequence of commits lists the images in their order
    after what was listed before. *)
Lemma commitAll_Ok w imgs σ u σ' :
  commitAll w imgs σ = (Ok u, σ') ->
  exists descs,
    Forall2 describes imgs descs
    /\ listed (cmd.dst w) σ' = listed (cmd.dst w) σ ++ descs.
Proof.
  revert σ. induction imgs as [|img rest IH]; intros σ Hrun.
  - apply ret_Ok in Hrun as [_ ->]. exists []. split; [constructor|].
    symmetry. apply app_nil_r.
  - cbn [commitAll] in Hrun.
    apply bind_Ok in Hrun as (u1 & σ1 & Hfirst & Hrun).
    apply LocalWriter_WriteImage_Ok in Hfirst as (d & Hd & Hl1).
    apply IH in Hrun as (descs & Hall & Hl').
    exists (d :: descs). split; [constructor; assumption|].
    rewrite Hl', Hl1, <- app_assoc. reflexivity.
Qed.

End LocalSink.

(** C3.  After two or more images have been committed one after another
    to the same local sink, the index of the layout lists every one of
    them, and everything it listed before. *)
Theorem local_commits_accumulate `{Codec} w imgs σ σ' :
  (2 <= length imgs)%nat ->
  commitAll w imgs σ = (Ok tt, σ') ->
  (forall d, d ∈ listed (cmd.dst w) σ -> d ∈ listed (cmd.dst w) σ')
  /\ (forall img, img ∈ imgs ->
        exists d, describes img d /\ d ∈ listed (cmd.dst w) σ').
Proof.
  intros _ Hrun.
  apply commitAll_Ok in Hrun as (descs & Hall & ->).
  split.
  - intros d Hd. apply elem_of_app. left. exact Hd.
  - intros img Himg.
    apply list_elem_of_lookup in Himg as [i Hi].
    destruct (Forall2_lookup_l _ _ _ _ _ Hall Hi) as (d & Hdi & Hd).
    exists d. split; [exact Hd|].
    apply elem_of_app. right. eapply list_elem_of_lookup_2. exact Hdi.
Qed.

Lemma local_commits_accumulate_witness :
  exists σ',
    @commitAll toyCodec {| cmd.dst := "out" |}
      [sampleImage "one"; sampleImage "two"; sampleImage "three"] emptyWorld
    = (Ok tt, σ')
    /\ map desc_Digest (listed "out" σ') = ["sha256:one"; "sha256:two"; "sha256:three"]
    /\ forall img, img ∈ [sampleImage "one"; sampleImage "two"; sampleImage "three"] ->
         exists d, describes img d /\ d ∈ listed "out" σ'.
Proof.
  destruct (@commitAll toyCodec {| cmd.dst := "out" |}
              [sampleImage "one"; sampleImage "two"; sampleImage "three"] emptyWorld)
    as [r σ'] eqn:Hrun.
  assert (Hok : r = Ok tt
                /\ map desc_Digest (listed "out" σ')
                   = ["sha256:one"; "sha256:two"; "sha256:three"]).
  { vm_compute in Hrun. injection Hrun as <- <-. split; reflexivity. }
  destruct Hok as [-> Hlisted].
  exists σ'. split; [reflexivity|]. split; [exact Hlisted|].
  apply (@local_commits_accumulate toyCodec {| cmd.dst := "out" |}
           [sampleImage "one"; sampleImage "two"; sampleImage "three"]
           emptyWorld σ'); [cbn; lia | exact Hrun].
Defined.

(** ** Children that are neither images nor indices *)

Lemma flattenChild_unfold `{Codec} old w use o :
  cmd.flattenChild old w use o =
  match old with
  | AnIndex idx => cmd.flattenIndex idx w use o
  | AnImage img => cmd.flattenImage img w use o
  | Other a => let* _ := cmd.warn "can't flatten, skipping" in ret old
  end.
Proof. destruct old; reflexivity. Qed.

(** C1, as stated, fails: flattening a bare layer that is the child of an
    index returns the layer and no error, and the flatten of the index
    goes on and returns an index that still holds it. *)
Lemma unsupported_child_is_kept :
  art_MediaType layerArtifact = Ok OCILayer
  /\ @IsIndex ociV1 OCILayer = false /\ @IsImage ociV1 OCILayer = false
  /\ @cmd.flattenChild toyCodec (Other layerArtifact) toRepo "crane" readOptions
       registryWorld
     = (Ok (Other layerArtifact),
        set_warnings ["can't flatten, skipping"] registryWorld)
  /\ exists idx σ' kept,
       @cmd.flattenIndex toyCodec attachedIndex toRepo "crane" readOptions
         registryWorld
       = (Ok (AnIndex idx), σ')
       /\ partial.Manifests idx = Ok [AnImage kept; Other layerArtifact].
Proof.
  repeat (split; [reflexivity|]).
  destruct (@cmd.flattenIndex toyCodec attachedIndex toRepo "crane" readOptions
              registryWorld) as [r σ'] eqn:Hrun.
  vm_compute in Hrun. injection Hrun as <- <-.
  eexists _, _, _. split; reflexivity.
Qed.

(** C1, amended.  [flattenChild] logs a warning for a child that is
    neither an image nor an index and returns it as it is, with no
    error; the loop of [flattenIndex] then lists it with the size and
    digest read from it and goes on.  It is [flatten], at the root, that
    fails on a media type that is neither index-shaped nor image-shaped,
    with nothing written. *)
Theorem only_the_root_rejects_other_kinds `{V1} `{Codec} w use o :
  (forall a σ,
     cmd.flattenChild (Other a) w use o σ
     = (Ok (Other a), set_warnings (warnings σ ++ ["can't flatten, skipping"]) σ))
  /\
  (forall a d sz dg rest adds σ,
     art_Descriptor a = Ok d -> cmd.isAttestation d = false ->
     art_Size a = Ok sz -> art_Digest a = Ok dg ->
     cmd.flattenRange (fun c => cmd.flattenChild c w use o) (Other a :: rest) adds σ
     = cmd.flattenRange (fun c => cmd.flattenChild c w use o) rest
         (adds ++ [{| Add := Other a; add_Descriptor := cmd.withSizeDigest d sz dg |}])
         (set_warnings (warnings σ ++ ["can't flatten, skipping"]) σ))
  /\
  (forall ref desc σ,
     manifests σ !! ref = Some desc ->
     IsIndex (rd_MediaType desc) = false ->
     IsImage (rd_MediaType desc) = false ->
     cmd.flatten ref w use o σ = (Err (ErrCantFlatten (rd_MediaType desc)), σ)).
Proof.
  split; [|split].
  - intros a σ. reflexivity.
  - intros a d sz dg rest adds σ Hd Hatt Hsz Hdg.
    cbn [cmd.flattenRange partial.Descriptor].
    unfold bind at 1. unfold lift at 1. rewrite Hd, Hatt.
    unfold bind at 1. rewrite flattenChild_unfold.
    unfold bind at 1. unfold cmd.warn, ret.
    unfold bind at 1. unfold lift at 1. cbn [partial.Size]. rewrite Hsz.
    unfold bind at 1. unfold lift at 1. cbn [partial.Digest]. rewrite Hdg.
    reflexivity.
  - intros ref desc σ Href Hidx Himg.
    unfold cmd.flatten, bind, wrap, remote.Get.
    rewrite Href, Hidx, Himg. reflexivity.
Qed.

Lemma only_the_root_rejects_other_kinds_witness :
  @cmd.flatten ociV1 toyCodec "example.com/repo:blob" toRepo "crane" readOptions
    blobWorld
  = (Err (ErrCantFlatten OCILayer), blobWorld).
Proof.
  apply (proj2 (proj2 (@only_the_root_rejects_other_kinds ociV1 toyCodec toRepo
                         "crane" readOptions))
           "example.com/repo:blob"
           {| rd_MediaType := OCILayer;
              rd_ImageIndex := Err (ErrExternal "not an index");
              rd_Image := Err (ErrExternal "not an image") |}
           blobWorld);
    reflexivity.
Defined.

(** ** The engine on a local sink *)

(** Flattening [multiIndex] into the layout [out]: the two images that are
    kept are committed as the loop reaches them, in their order; nothing
    is uploaded. *)
Example flattenIndex_to_layout :
  exists idx σ',
    @cmd.flattenIndex toyCodec multiIndex toLayout "crane" readOptions emptyWorld
    = (Ok (AnIndex idx), σ')
    /\ length (listed "out" σ') = 2%nat
    /\ uploads σ' = ∅
    /\ idx_MediaType idx = Ok DockerManifestList.
Proof.
  destruct (@cmd.flattenIndex toyCodec multiIndex toLayout "crane" readOptions
              emptyWorld) as [r σ'] eqn:Hrun.
  vm_compute in Hrun. injection Hrun as <- <-.
  eexists _, _. repeat split; reflexivity.
Qed.

(** * Further properties *)

(** ** Induction on the indices an index resolves *)

Section DescendInd.
Variable P : ImageIndex -> Prop.
Hypothesis step :
  forall idx,
    (forall h sub, idx_ImageIndex idx h = Ok sub -> P sub) -> P idx.

Fixpoint descend_ind (idx : ImageIndex) : P idx :=
  step idx
    (match idx as i
           return forall h sub, idx_ImageIndex i h = Ok sub -> P sub with
     | mkImageIndex _ _ _ _ _ _ imageIndex _ =>
         fun h sub =>
           match imageIndex h as r return r = Ok sub -> P sub with
           | Ok s => fun E =>
               match E in _ = r' return match r' with Ok x => P x | Err _ => True end
               with eq_refl => descend_ind s end
           | Err e => fun E =>
               match E in _ = r' return match r' with Ok _ => P sub | Err _ => True end
               with eq_refl => I end
           end
     end).
End DescendInd.

(** ** The walkers on every index *)

(** A scan either passes over every child or stops at a first one. *)
Lemma scan_split {A} (skips : A -> bool) (ms : list A) :
  Forall (fun m => skips m = true) ms
  \/ exists pre m post,
       ms = pre ++ m :: post
       /\ Forall (fun c => skips c = true) pre /\ skips m = false.
Proof.
  induction ms as [|m ms [Hall | (pre & x & post & -> & Hpre & Hx)]].
  - left. constructor.
  - destruct (skips m) eqn:Hm.
    + left. constructor; assumption.
    + right. exists [], m, ms. repeat split; [constructor | exact Hm].
  - destruct (skips m) eqn:Hm.
    + right. exists (m :: pre), x, post.
      repeat split; [constructor; assumption | exact Hx].
    + right. exists [], m, (pre ++ x :: post).
      repeat split; [constructor | exact Hm].
Qed.

Section WalkersOnTrees.
Context `{V1}.

(** Where the loop of [walk] stops, and with what. *)
Lemma walkRange_cases idx matcher descend ms :
  (Forall (fun m => layout.walkSkips matcher m = true) ms
   /\ layout.walkRange idx matcher descend ms = Ok None)
  \/ (exists pre m post,
        ms = pre ++ m :: post
        /\ Forall (fun c => layout.walkSkips matcher c = true) pre
        /\ IsIndex (desc_MediaType m) = true
        /\ layout.walkRange idx matcher descend ms
           = match idx_ImageIndex idx (desc_Digest m) with
             | Err e => Err (Errorf ("reading index " +:+ desc_Digest m) e)
             | Ok subIdx => descend subIdx
             end)
  \/ (exists pre m post,
        ms = pre ++ m :: post
        /\ Forall (fun c => layout.walkSkips matcher c = true) pre
        /\ IsIndex (desc_MediaType m) = false
        /\ IsImage (desc_MediaType m) = true
        /\ matcher m = true
        /\ layout.walkRange idx matcher descend ms
           = match idx_Image idx (desc_Digest m) with
             | Err e => Err (Errorf ("reading image " +:+ desc_Digest m) e)
             | Ok img => Ok (Some img)
             end).
Proof.
  destruct (scan_split (layout.walkSkips matcher) ms)
    as [Hall | (pre & m & post & -> & Hpre & Hm)].
  - left. split; [exact Hall|].
    rewrite <- (app_nil_r ms), walkRange_skips by exact Hall. reflexivity.
  - right. rewrite walkRange_skips by exact Hpre. cbn [layout.walkRange].
    unfold layout.walkSkips in Hm.
    destruct (IsIndex (desc_MediaType m)) eqn:Hi.
    + left. exists pre, m, post. auto.
    + right. cbn in Hm. apply negb_false_iff, andb_true_iff in Hm as [Him Hmm].
      rewrite Him, Hmm. exists pre, m, post. auto 10.
Qed.

(** Where the loop of [find] stops, and with what. *)
Lemma findRange_cases idx o descend ms :
  (Forall (fun m => crane.findSkips o m = true) ms
   /\ crane.findRange idx o descend ms
      = Returns (Err (ErrCannotFind (crane.opt_Platform o))))
  \/ (exists pre m post,
        ms = pre ++ m :: post
        /\ Forall (fun c => crane.findSkips o c = true) pre
        /\ IsIndex (desc_MediaType m) = true
        /\ crane.findRange idx o descend ms
           = match idx_ImageIndex idx (desc_Digest m) with
             | Err e => Returns (Err (Errorf ("reading index " +:+ desc_Digest m) e))
             | Ok subIdx => descend subIdx
             end)
  \/ (exists pre m post mp op,
        ms = pre ++ m :: post
        /\ Forall (fun c => crane.findSkips o c = true) pre
        /\ IsIndex (desc_MediaType m) = false
        /\ IsImage (desc_MediaType m) = true
        /\ desc_Platform m = Some mp /\ crane.opt_Platform o = Some op
        /\ Equals mp op = true
        /\ crane.findRange idx o descend ms
           = match idx_Image idx (desc_Digest m) with
             | Err e => Returns (Err (Errorf ("reading image " +:+ desc_Digest m) e))
             | Ok img => Returns (Ok img)
             end)
  \/ (exists pre m post,
        ms = pre ++ m :: post
        /\ Forall (fun c => crane.findSkips o c = true) pre
        /\ IsIndex (desc_MediaType m) = false
        /\ IsImage (desc_MediaType m) = true
        /\ (desc_Platform m = None \/ crane.opt_Platform o = None)
        /\ crane.findRange idx o descend ms = Panics nilDeref).
Proof.
  destruct (scan_split (crane.findSkips o) ms)
    as [Hall | (pre & m & post & -> & Hpre & Hm)].
  - left. split; [exact Hall|].
    rewrite <- (app_nil_r ms), findRange_skips by exact Hall. reflexivity.
  - right. rewrite findRange_skips by exact Hpre. cbn [crane.findRange].
    unfold crane.findSkips in Hm.
    destruct (IsIndex (desc_MediaType m)) eqn:Hi.
    + left. exists pre, m, post. auto.
    + right. cbn in Hm.
      destruct (IsImage (desc_MediaType m)) eqn:Him; [|discriminate].
      destruct (desc_Platform m) as [mp|] eqn:Hmp.
      * destruct (crane.opt_Platform o) as [op|] eqn:Hop.
        -- apply negb_false_iff in Hm. rewrite Hm.
           left. exists pre, m, post, mp, op. auto 10.
        -- right. exists pre, m, post. auto 10.
      * right. exists pre, m, post. auto 10.
Qed.

(** When the scan of [walk] passes over every child (an index without
    children included), [walk] returns no image and no error. *)
Theorem walk_without_match_returns_nil idx matcher depth manifest :
  depth < layout.maxDepth ->
  idx_IndexManifest idx = Ok manifest ->
  Forall (fun m => layout.walkSkips matcher m = true) (im_Manifests manifest) ->
  layout.walk idx matcher depth = Ok None.
Proof.
  intros Hd Hman Hall. rewrite walk_unfold.
  rewrite bool_decide_eq_false_2 by lia. rewrite Hman.
  rewrite <- (app_nil_r (im_Manifests manifest)).
  rewrite walkRange_skips by exact Hall. reflexivity.
Qed.

(** When the scan of [find] passes over every child, [find] fails with
    "cannot find image for platform", naming the requested platform. *)
Theorem find_without_match_fails idx o manifest :
  idx_IndexManifest idx = Ok manifest ->
  Forall (fun m => crane.findSkips o m = true) (im_Manifests manifest) ->
  crane.find idx o = Returns (Err (ErrCannotFind (crane.opt_Platform o))).
Proof.
  intros Hman Hall. rewrite find_unfold, Hman.
  rewrite <- (app_nil_r (im_Manifests manifest)).
  rewrite findRange_skips by exact Hall. reflexivity.
Qed.

(** When the scan reaches an image-shaped child the matcher accepts (for
    [find]: whose platform equals the requested one), both walkers
    return the image stored under its digest, or the error of reading
    it; the children after it play no part. *)
Theorem first_match_wins idx matcher o depth manifest pre m post :
  idx_IndexManifest idx = Ok manifest ->
  im_Manifests manifest = pre ++ m :: post ->
  IsIndex (desc_MediaType m) = false ->
  IsImage (desc_MediaType m) = true ->
  (depth < layout.maxDepth ->
   Forall (fun c => layout.walkSkips matcher c = true) pre ->
   matcher m = true ->
   layout.walk idx matcher depth =
   match idx_Image idx (desc_Digest m) with
   | Err e => Err (Errorf ("reading image " +:+ desc_Digest m) e)
   | Ok img => Ok (Some img)
   end)
  /\
  (forall mp op,
     Forall (fun c => crane.findSkips o c = true) pre ->
     desc_Platform m = Some mp -> crane.opt_Platform o = Some op ->
     Equals mp op = true ->
     crane.find idx o =
     match idx_Image idx (desc_Digest m) with
     | Err e => Returns (Err (Errorf ("reading image " +:+ desc_Digest m) e))
     | Ok img => Returns (Ok img)
     end).
Proof.
  intros Hman Hms Hi Him. split.
  - intros Hd Hpre Hm. rewrite walk_unfold.
    rewrite bool_decide_eq_false_2 by lia.
    rewrite Hman, Hms, walkRange_skips by exact Hpre.
    cbn [layout.walkRange]. rewrite Hi, Him, Hm. reflexivity.
  - intros mp op Hpre Hmp Hop Heq. rewrite find_unfold.
    rewrite Hman, Hms, findRange_skips by exact Hpre.
    cbn [crane.findRange]. rewrite Hi, Him, Hmp, Hop, Heq. reflexivity.
Qed.

(** An image [walk] returns is stored, in an index reached from the
    root, under the digest of an image-shaped child that the matcher
    accepts. *)
Theorem walk_returns_accepted_image idx matcher depth img :
  layout.walk idx matcher depth = Ok (Some img) ->
  exists idx' manifest m,
    reaches idx idx'
    /\ idx_IndexManifest idx' = Ok manifest
    /\ In m (im_Manifests manifest)
    /\ IsImage (desc_MediaType m) = true
    /\ matcher m = true
    /\ idx_Image idx' (desc_Digest m) = Ok img.
Proof.
  revert depth. induction idx as [idx IH] using descend_ind. intros depth Hw.
  rewrite walk_unfold in Hw.
  case_bool_decide; [discriminate|].
  destruct (idx_IndexManifest idx) as [manifest|] eqn:Hman; [|discriminate].
  destruct (walkRange_cases idx matcher
              (fun subIdx => layout.walk subIdx matcher (depth + 1))
              (im_Manifests manifest))
    as [[_ Hr] | [(pre & m & post & Hms & _ & _ & Hr)
                 | (pre & m & post & Hms & _ & _ & Him & Hm & Hr)]];
    rewrite Hr in Hw.
  - discriminate.
  - destruct (idx_ImageIndex idx (desc_Digest m)) as [sub|] eqn:Hsub; [|discriminate].
    destruct (IH _ _ Hsub _ Hw) as (idx' & manifest' & m' & Hreach & Hrest).
    exists idx', manifest', m'. split; [|exact Hrest].
    eapply reaches_below; eassumption.
  - destruct (idx_Image idx (desc_Digest m)) as [img'|] eqn:Himg; [|discriminate].
    injection Hw as ->.
    exists idx, manifest, m. split; [constructor|].
    split; [exact Hman|]. split; [|auto].
    rewrite Hms. apply in_elt.
Qed.

(** An image [find] returns is stored, in an index reached from the
    root, under the digest of an image-shaped child whose platform
    equals the requested one. *)
Theorem find_returns_requested_platform idx o img :
  crane.find idx o = Returns (Ok img) ->
  exists idx' manifest m mp op,
    reaches idx idx'
    /\ idx_IndexManifest idx' = Ok manifest
    /\ In m (im_Manifests manifest)
    /\ IsImage (desc_MediaType m) = true
    /\ desc_Platform m = Some mp /\ crane.opt_Platform o = Some op
    /\ Equals mp op = true
    /\ idx_Image idx' (desc_Digest m) = Ok img.
Proof.
  induction idx as [idx IH] using descend_ind. intros Hf.
  rewrite find_unfold in Hf.
  destruct (idx_IndexManifest idx) as [manifest|] eqn:Hman; [|discriminate].
  destruct (findRange_cases idx o (fun subIdx => crane.find subIdx o)
              (im_Manifests manifest))
    as [[_ Hr] | [(pre & m & post & Hms & _ & _ & Hr)
                 | [(pre & m & post & mp & op & Hms & _ & _ & Him & Hmp & Hop & Heq & Hr)
                   | (pre & m & post & _ & _ & _ & _ & _ & Hr)]]];
    rewrite Hr in Hf.
  - discriminate.
  - destruct (idx_ImageIndex idx (desc_Digest m)) as [sub|] eqn:Hsub; [|discriminate].
    destruct (IH _ _ Hsub Hf) as (idx' & manifest' & m' & mp & op & Hreach & Hrest).
    exists idx', manifest', m', mp, op. split; [|exact Hrest].
    eapply reaches_below; eassumption.
  - destruct (idx_Image idx (desc_Digest m)) as [img'|] eqn:Himg; [|discriminate].
    injection Hf as ->.
    exists idx, manifest, m, mp, op. split; [constructor|].
    split; [exact Hman|]. split; [|auto 10].
    rewrite Hms. apply in_elt.
  - discriminate.
Qed.

(** Started at or below the ceiling, [walk] reports the max-depth error
    at the ceiling itself, whatever the depth of the tree. *)
Theorem walk_reports_the_ceiling idx matcher depth k :
  depth <= layout.maxDepth ->
  layout.walk idx matcher depth = Err (ErrMaxDepth k) ->
  k = layout.maxDepth.
Proof.
  revert depth. induction idx as [idx IH] using descend_ind. intros depth Hd Hw.
  rewrite walk_unfold in Hw.
  case_bool_decide as Hc.
  - injection Hw as <-. lia.
  - destruct (idx_IndexManifest idx) as [manifest|] eqn:Hman; [|discriminate].
    destruct (walkRange_cases idx matcher
                (fun subIdx => layout.walk subIdx matcher (depth + 1))
                (im_Manifests manifest))
      as [[_ Hr] | [(pre & m & post & _ & _ & _ & Hr)
                   | (pre & m & post & _ & _ & _ & _ & _ & Hr)]];
      rewrite Hr in Hw.
    + discriminate.
    + destruct (idx_ImageIndex idx (desc_Digest m)) as [sub|] eqn:Hsub; [|discriminate].
      apply (IH _ _ Hsub (depth + 1)); [lia | exact Hw].
    + destruct (idx_Image idx (desc_Digest m)); discriminate.
Qed.

(** [find] for platform [p] and [walk] with the matcher for [p] take the
    same path: unless [find] panics on a missing platform or [walk]
    stops at the ceiling, [find] returns what [walk] returns, with
    "cannot find image" in place of the nil result. *)
Theorem find_agrees_with_walk idx o p depth :
  crane.opt_Platform o = Some p ->
  crane.find idx o = Panics nilDeref
  \/ (exists k, layout.walk idx (forPlatform p) depth = Err (ErrMaxDepth k))
  \/ crane.find idx o = asFind (Some p) (layout.walk idx (forPlatform p) depth).
Proof.
  intros Hp. revert depth. induction idx as [idx IH] using descend_ind.
  intros depth. rewrite walk_unfold, find_unfold.
  case_bool_decide as Hc; [right; left; eauto|].
  destruct (idx_IndexManifest idx) as [manifest|] eqn:Hman; [|right; right; reflexivity].
  induction (im_Manifests manifest) as [|m ms IHms].
  - right. right. cbn. rewrite Hp. reflexivity.
  - cbn [layout.walkRange crane.findRange].
    destruct (IsIndex (desc_MediaType m)).
    + destruct (idx_ImageIndex idx (desc_Digest m)) as [sub|] eqn:Hsub.
      * apply (IH _ _ Hsub).
      * right. right. reflexivity.
    + destruct (IsImage (desc_MediaType m)); [|exact IHms].
      rewrite Hp.
      replace (forPlatform p m)
        with (match desc_Platform m with Some q => Equals q p | None => false end)
        by reflexivity.
      destruct (desc_Platform m) as [mp|]; [|left; reflexivity].
      destruct (Equals mp p); [|exact IHms].
      right. right. destruct (idx_Image idx (desc_Digest m)); reflexivity.
Qed.

(** [find] panics only on a missing platform: its own, or that of an
    image-shaped child of an index reached from the root. *)
Theorem find_panics_only_on_missing_platform idx o msg :
  crane.find idx o = Panics msg ->
  crane.opt_Platform o = None
  \/ exists idx' manifest m,
       reaches idx idx'
       /\ idx_IndexManifest idx' = Ok manifest
       /\ In m (im_Manifests manifest)
       /\ IsImage (desc_MediaType m) = true
       /\ desc_Platform m = None.
Proof.
  induction idx as [idx IH] using descend_ind. intros Hf.
  rewrite find_unfold in Hf.
  destruct (idx_IndexManifest idx) as [manifest|] eqn:Hman; [|discriminate].
  destruct (findRange_cases idx o (fun subIdx => crane.find subIdx o)
              (im_Manifests manifest))
    as [[_ Hr] | [(pre & m & post & Hms & _ & _ & Hr)
                 | [(pre & m & post & mp & op & _ & _ & _ & _ & _ & _ & _ & Hr)
                   | (pre & m & post & Hms & _ & _ & Him & Hnil & Hr)]]];
    rewrite Hr in Hf.
  - discriminate.
  - destruct (idx_ImageIndex idx (desc_Digest m)) as [sub|] eqn:Hsub; [|discriminate].
    destruct (IH _ _ Hsub Hf) as [Ho | (idx' & manifest' & m' & Hreach & Hrest)];
      [left; exact Ho|].
    right. exists idx', manifest', m'. split; [|exact Hrest].
    eapply reaches_below; eassumption.
  - destruct (idx_Image idx (desc_Digest m)); discriminate.
  - destruct Hnil as [Hnil | Hnil]; [|left; exact Hnil].
    right. exists idx, manifest, m. split; [constructor|].
    split; [exact Hman|]. split; [|auto].
    rewrite Hms. apply in_elt.
Qed.

(** An image [FindImage] returns is stored in the layout at [path],
    under the digest of an image-shaped child that the matcher accepts. *)
Theorem FindImage_returns_accepted_image fs path matcher img :
  layout.FindImage fs path matcher = Ok (Some img) ->
  exists root idx' manifest m,
    layout.path_ImageIndex fs path = Ok root
    /\ reaches root idx'
    /\ idx_IndexManifest idx' = Ok manifest
    /\ In m (im_Manifests manifest)
    /\ IsImage (desc_MediaType m) = true
    /\ matcher m = true
    /\ idx_Image idx' (desc_Digest m) = Ok img.
Proof.
  unfold layout.FindImage. intros Hf.
  destruct (layout.path_ImageIndex fs path) as [root|] eqn:Hroot; [|discriminate].
  destruct (layout.walk root matcher 0) as [r|] eqn:Hw; [|discriminate].
  injection Hf as ->.
  apply walk_returns_accepted_image in Hw as (idx' & manifest & m & Hrest).
  exists root, idx', manifest, m. auto.
Qed.


(** [Read] panics only when an image-shaped child of an index of the
    layout has no platform: the requested platform is never missing. *)
Theorem Read_panics_only_on_missing_platform fs p o msg :
  crane.Read fs p o = Panics msg ->
  exists root idx' manifest m,
    layout.path_ImageIndex fs p = Ok root
    /\ reaches root idx'
    /\ idx_IndexManifest idx' = Ok manifest
    /\ In m (im_Manifests manifest)
    /\ IsImage (desc_MediaType m) = true
    /\ desc_Platform m = None.
Proof.
  unfold crane.Read, layout.FromPath. intros Hr.
  destruct (layout.os_Stat fs (p +:+ "/index.json")) as [[]|] eqn:Hstat; [|discriminate].
  destruct (layout.path_ImageIndex fs p) as [root|] eqn:Hroot; [|discriminate].
  match type of Hr with
  | match crane.find root ?o' with _ => _ end = _ =>
      destruct (crane.find root o') as [[img'|]|msg'] eqn:Hf; try discriminate;
      assert (Ho' : crane.opt_Platform o' <> None)
        by (destruct (crane.opt_Platform o) eqn:Ho; [rewrite Ho|]; discriminate)
  end.
  apply find_panics_only_on_missing_platform in Hf
    as [Hnone | (idx' & manifest & m & Hrest)]; [contradiction|].
  exists root, idx', manifest, m. auto.
Qed.

End WalkersOnTrees.

Lemma walk_without_match_returns_nil_witness :
  @layout.walk ociV1 armOnlyIndex linuxMatcher 0 = Ok None.
Proof.
  apply (@walk_without_match_returns_nil ociV1 armOnlyIndex linuxMatcher 0
           {| im_MediaType := OCIImageIndex;
              im_Manifests := [imageDescriptor "other" (Some armPlatform)];
              im_Annotations := ∅ |});
    [reflexivity | reflexivity | repeat constructor].
Defined.

Lemma find_without_match_fails_witness :
  @crane.find ociV1 armOnlyIndex readOptions
  = Returns (Err (ErrCannotFind (Some linuxAmd64))).
Proof.
  apply (@find_without_match_fails ociV1 armOnlyIndex readOptions
           {| im_MediaType := OCIImageIndex;
              im_Manifests := [imageDescriptor "other" (Some armPlatform)];
              im_Annotations := ∅ |});
    [reflexivity | repeat constructor].
Defined.

Lemma first_match_wins_witness :
  @layout.walk ociV1 matchFirstIndex linuxMatcher 0 = Ok (Some (sampleImage "leaf"))
  /\ @crane.find ociV1 matchFirstIndex readOptions = Returns (Ok (sampleImage "leaf")).
Proof.
  destruct (@first_match_wins ociV1 matchFirstIndex linuxMatcher readOptions 0
              {| im_MediaType := OCIImageIndex;
                 im_Manifests :=
                   [imageDescriptor "leaf" (Some linuxAmd64);
                    imageDescriptor "bare" None];
                 im_Annotations := ∅ |}
              [] (imageDescriptor "leaf" (Some linuxAmd64))
              [imageDescriptor "bare" None]
              eq_refl eq_refl eq_refl eq_refl) as [Hwalk Hfind].
  split.
  - apply Hwalk; [reflexivity | constructor | reflexivity].
  - apply (Hfind linuxAmd64 linuxAmd64); [constructor | reflexivity ..].
Defined.

Lemma walk_returns_accepted_image_witness :
  exists idx' manifest m,
    reaches (nested 3) idx'
    /\ idx_IndexManifest idx' = Ok manifest
    /\ In m (im_Manifests manifest)
    /\ @IsImage ociV1 (desc_MediaType m) = true
    /\ linuxMatcher m = true
    /\ idx_Image idx' (desc_Digest m) = Ok (sampleImage "leaf").
Proof.
  apply (@walk_returns_accepted_image ociV1 (nested 3) linuxMatcher 0).
  reflexivity.
Defined.

Lemma find_returns_requested_platform_witness :
  exists idx' manifest m mp op,
    reaches (nested 3) idx'
    /\ idx_IndexManifest idx' = Ok manifest
    /\ In m (im_Manifests manifest)
    /\ @IsImage ociV1 (desc_MediaType m) = true
    /\ desc_Platform m = Some mp /\ crane.opt_Platform readOptions = Some op
    /\ @Equals ociV1 mp op = true
    /\ idx_Image idx' (desc_Digest m) = Ok (sampleImage "leaf").
Proof.
  apply (@find_returns_requested_platform ociV1 (nested 3) readOptions).
  reflexivity.
Defined.

Lemma walk_reports_the_ceiling_witness :
  @layout.walk ociV1 (nested 12) linuxMatcher 4 = Err (ErrMaxDepth 10)
  /\ 10 = layout.maxDepth.
Proof.
  assert (Hw : @layout.walk ociV1 (nested 12) linuxMatcher 4 = Err (ErrMaxDepth 10))
    by reflexivity.
  split; [exact Hw|].
  apply (@walk_reports_the_ceiling ociV1 (nested 12) linuxMatcher 4 10);
    [unfold layout.maxDepth; lia | exact Hw].
Defined.

Lemma find_agrees_with_walk_witness :
  @crane.find ociV1 detourIndex readOptions = Panics nilDeref
  \/ (exists k, @layout.walk ociV1 detourIndex (@forPlatform ociV1 linuxAmd64) 0
                 = Err (ErrMaxDepth k))
  \/ @crane.find ociV1 detourIndex readOptions
     = asFind (Some linuxAmd64)
         (@layout.walk ociV1 detourIndex (@forPlatform ociV1 linuxAmd64) 0).
Proof.
  apply (@find_agrees_with_walk ociV1 detourIndex readOptions linuxAmd64 0).
  reflexivity.
Defined.

Lemma find_panics_only_on_missing_platform_witness :
  crane.opt_Platform readOptions = None
  \/ exists idx' manifest m,
       reaches barePlatformIndex idx'
       /\ idx_IndexManifest idx' = Ok manifest
       /\ In m (im_Manifests manifest)
       /\ @IsImage ociV1 (desc_MediaType m) = true
       /\ desc_Platform m = None.
Proof.
  apply (@find_panics_only_on_missing_platform ociV1 barePlatformIndex readOptions
           nilDeref).
  reflexivity.
Defined.

Lemma FindImage_returns_accepted_image_witness :
  exists root idx' manifest m,
    layout.path_ImageIndex (diskWith "img" (nested 2)) "img" = Ok root
    /\ reaches root idx'
    /\ idx_IndexManifest idx' = Ok manifest
    /\ In m (im_Manifests manifest)
    /\ @IsImage ociV1 (desc_MediaType m) = true
    /\ linuxMatcher m = true
    /\ idx_Image idx' (desc_Digest m) = Ok (sampleImage "leaf").
Proof.
  apply (@FindImage_returns_accepted_image ociV1 (diskWith "img" (nested 2)) "img"
           linuxMatcher).
  reflexivity.
Defined.


Lemma Read_panics_only_on_missing_platform_witness :
  exists root idx' manifest m,
    layout.path_ImageIndex (diskWith "img" barePlatformIndex) "img" = Ok root
    /\ reaches root idx'
    /\ idx_IndexManifest idx' = Ok manifest
    /\ In m (im_Manifests manifest)
    /\ @IsImage ociV1 (desc_MediaType m) = true
    /\ desc_Platform m = None.
Proof.
  apply (@Read_panics_only_on_missing_platform ociV1
           (diskWith "img" barePlatformIndex) "img" noOptions nilDeref).
  reflexivity.
Defined.

(** ** Induction on the children of an index *)

Section ChildrenInd.
Variable P : ImageIndex -> Prop.
Variable Q : Describable -> Prop.
Hypothesis on_index :
  forall idx, (forall cs, idx_Manifests idx = Ok cs -> Forall Q cs) -> P idx.
Hypothesis on_image : forall img, Q (AnImage img).
Hypothesis on_nested : forall idx, P idx -> Q (AnIndex idx).
Hypothesis on_other : forall a, Q (Other a).

Fixpoint index_children_ind (idx : ImageIndex) : P idx :=
  on_index idx
    (match idx as i
           return forall cs, idx_Manifests i = Ok cs -> Forall Q cs with
     | mkImageIndex _ _ _ _ _ _ _ ms =>
         fun cs =>
           match ms as r return r = Ok cs -> Forall Q cs with
           | Ok l => fun E =>
               match E in _ = r'
                     return match r' with Ok x => Forall Q x | Err _ => True end
               with eq_refl =>
                 (fix all (l : list Describable) : Forall Q l :=
                    match l with
                    | [] => List.Forall_nil Q
                    | c :: r => @List.Forall_cons _ Q c r (describable_children_ind c) (all r)
                    end) l
               end
           | Err e => fun E =>
               match E in _ = r'
                     return match r' with Ok _ => Forall Q cs | Err _ => True end
               with eq_refl => I end
           end
     end)
with describable_children_ind (d : Describable) : Q d :=
  match d with
  | AnImage img => on_image img
  | AnIndex idx => on_nested idx (index_children_ind idx)
  | Other a => on_other a
  end.
End ChildrenInd.

(** ** What the engine does to the world *)

Lemma preserves_ret {A} P (a : A) : preserves P (ret a).
Proof. intros σ Hσ. exact Hσ. Qed.

Lemma preserves_fail {A} P e : preserves P (@fail A e).
Proof. intros σ Hσ. exact Hσ. Qed.

Lemma preserves_lift {A} P (r : result A) : preserves P (lift r).
Proof. intros σ Hσ. exact Hσ. Qed.

Lemma preserves_bind {A B} P (c : M A) (k : A -> M B) :
  preserves P c -> (forall a, preserves P (k a)) -> preserves P (bind c k).
Proof.
  intros Hc Hk σ Hσ. unfold bind. specialize (Hc σ Hσ).
  destruct (c σ) as [[a|e] σ1]; [apply Hk|]; exact Hc.
Qed.

Lemma preserves_wrap {A} P ctx (c : M A) :
  preserves P c -> preserves P (wrap ctx c).
Proof.
  intros Hc σ Hσ. unfold wrap. specialize (Hc σ Hσ).
  destruct (c σ) as [[a|e] σ1]; exact Hc.
Qed.

Section Frame.
Context `{Codec}.
Variable P : World -> Prop.
Variable w : cmd.ImageWriter.
Variable use : string.
Variable o : crane.Options.
Hypothesis layer_keeps : forall l opts, preserves P (cmd.WriteLayer w l opts).
Hypothesis image_keeps : forall img, preserves P (cmd.WriteImage w img).
Hypothesis warning_keeps :
  forall msg σ, P σ -> P (set_warnings (warnings σ ++ [msg]) σ).

Lemma flattenImage_preserves old : preserves P (cmd.flattenImage old w use o).
Proof.
  unfold cmd.flattenImage.
  repeat first
    [ apply preserves_bind; [|intros ?]
    | apply preserves_wrap
    | apply preserves_lift
    | apply preserves_ret
    | apply layer_keeps
    | apply image_keeps
    | match goal with
      | |- preserves _ (match ?r with Ok _ => _ | Err _ => _ end) =>
          destruct r; [apply preserves_ret | apply preserves_fail]
      end ].
Qed.

Lemma flattenRange_preserves f ms adds :
  Forall (fun c => preserves P (f c)) ms ->
  preserves P (cmd.flattenRange f ms adds).
Proof.
  intros Hall. revert adds. induction Hall as [|c ms Hc _ IH]; intros adds.
  - apply preserves_ret.
  - cbn [cmd.flattenRange].
    apply preserves_bind; [apply preserves_lift | intros d].
    destruct (cmd.isAttestation d); [apply IH|].
    apply preserves_bind; [exact Hc | intros flattened].
    apply preserves_bind; [apply preserves_lift | intros sz].
    apply preserves_bind; [apply preserves_lift | intros dg].
    apply IH.
Qed.

Lemma flatten_tree_preserves :
  (forall idx, preserves P (cmd.flattenIndex idx w use o))
  /\ (forall d, preserves P (cmd.flattenChild d w use o)).
Proof.
  assert (Hidx : forall idx,
             (forall cs, idx_Manifests idx = Ok cs ->
                         Forall (fun d => preserves P (cmd.flattenChild d w use o)) cs) ->
             preserves P (cmd.flattenIndex idx w use o)).
  { intros idx Hcs. rewrite flattenIndex_unfold.
    apply preserves_bind; [apply preserves_lift | intros m].
    unfold partial.Manifests.
    destruct (idx_Manifests idx) as [cs|e] eqn:Hms; [|apply preserves_fail].
    apply preserves_bind; [apply flattenRange_preserves, Hcs; reflexivity | intros adds].
    apply preserves_bind; [apply preserves_lift | intros mt].
    apply preserves_ret. }
  assert (Himg : forall img, preserves P (cmd.flattenChild (AnImage img) w use o)).
  { intros img. rewrite flattenChild_unfold. apply flattenImage_preserves. }
  assert (Hnest : forall idx, preserves P (cmd.flattenIndex idx w use o) ->
                              preserves P (cmd.flattenChild (AnIndex idx) w use o)).
  { intros idx Hi. rewrite flattenChild_unfold. exact Hi. }
  assert (Hoth : forall a, preserves P (cmd.flattenChild (Other a) w use o)).
  { intros a σ Hσ. apply warning_keeps. exact Hσ. }
  split.
  - exact (index_children_ind _ _ Hidx Himg Hnest Hoth).
  - exact (describable_children_ind _ _ Hidx Himg Hnest Hoth).
Qed.

End Frame.

(** The engine changes the world only through the sink and the warning
    log: a property of the world that uploads, commits and warnings
    keep is kept by [flattenImage], [flattenIndex] and [flattenChild],
    whether they succeed or fail. *)
Theorem flatten_changes_world_only_through_sink `{Codec} (P : World -> Prop) w use o :
  (forall l opts, preserves P (cmd.WriteLayer w l opts)) ->
  (forall img, preserves P (cmd.WriteImage w img)) ->
  (forall msg σ, P σ -> P (set_warnings (warnings σ ++ [msg]) σ)) ->
  (forall img, preserves P (cmd.flattenImage img w use o))
  /\ (forall idx, preserves P (cmd.flattenIndex idx w use o))
  /\ (forall d, preserves P (cmd.flattenChild d w use o)).
Proof.
  intros Hl Hi Hw. split.
  - intros img. apply flattenImage_preserves; assumption.
  - apply flatten_tree_preserves; assumption.
Qed.

(** With the remote sink the engine writes to no local layout and
    changes no manifest of the registry: committing an image is a no-op
    there, and an upload only adds a blob. *)
Theorem remote_sink_commits_nothing `{Codec} rw use o d σ :
  disk (cmd.flattenChild d (cmd.remoteWriter rw) use o σ).2 = disk σ
  /\ manifests (cmd.flattenChild d (cmd.remoteWriter rw) use o σ).2 = manifests σ.
Proof.
  set (P := fun σ' : World => disk σ' = disk σ /\ manifests σ' = manifests σ).
  assert (Hl : forall l opts,
             preserves P (cmd.WriteLayer (cmd.remoteWriter rw) l opts)).
  { intros l opts σ1 Hσ1. cbn.
    unfold cmd.RemoteWriter_WriteLayer, wrap, remote.WriteLayer.
    destruct (uploads σ1 !! cmd.repo rw); exact Hσ1. }
  assert (Hi : forall img, preserves P (cmd.WriteImage (cmd.remoteWriter rw) img)).
  { intros img σ1 Hσ1. exact Hσ1. }
  assert (Hw : forall msg σ1, P σ1 -> P (set_warnings (warnings σ1 ++ [msg]) σ1)).
  { intros msg σ1 Hσ1. exact Hσ1. }
  destruct (flatten_changes_world_only_through_sink P _ use o Hl Hi Hw)
    as (_ & _ & Hd).
  apply (Hd d σ). split; reflexivity.
Qed.

(** [layout.Write] and [AppendImage] write to the disk only. *)
Lemma Write_registry path ii σ :
  uploads (layout.Write path ii σ).2 = uploads σ
  /\ manifests (layout.Write path ii σ).2 = manifests σ.
Proof.
  unfold layout.Write.
  destruct (disk σ !! path); [split; reflexivity|].
  destruct (idx_IndexManifest ii); split; reflexivity.
Qed.

Lemma AppendImage_registry p img σ :
  uploads (layout.AppendImage p img σ).2 = uploads σ
  /\ manifests (layout.AppendImage p img σ).2 = manifests σ.
Proof.
  unfold layout.AppendImage.
  destruct (disk σ !! p); [|split; reflexivity].
  destruct (img_MediaType img), (img_Size img), (img_Digest img);
    split; reflexivity.
Qed.

(** With the local sink the engine uploads nothing to the registry:
    uploading a layer is a no-op there, and a commit only writes to the
    layout. *)
Theorem local_sink_uploads_nothing `{Codec} lw use o d σ :
  uploads (cmd.flattenChild d (cmd.localWriter lw) use o σ).2 = uploads σ
  /\ manifests (cmd.flattenChild d (cmd.localWriter lw) use o σ).2 = manifests σ.
Proof.
  set (P := fun σ' : World => uploads σ' = uploads σ /\ manifests σ' = manifests σ).
  assert (Hl : forall l opts,
             preserves P (cmd.WriteLayer (cmd.localWriter lw) l opts)).
  { intros l opts σ1 Hσ1. exact Hσ1. }
  assert (Hi : forall img, preserves P (cmd.WriteImage (cmd.localWriter lw) img)).
  { intros img σ1 [Hu Hm]. cbn. unfold cmd.LocalWriter_WriteImage.
    destruct (Write_registry (cmd.dst lw) empty.Index σ1) as [Hu2 Hm2].
    destruct (layout.Write (cmd.dst lw) empty.Index σ1) as [[p err] σ2].
    cbn in Hu2, Hm2.
    destruct (AppendImage_registry p img σ2) as [Hu3 Hm3].
    split; congruence. }
  assert (Hw : forall msg σ1, P σ1 -> P (set_warnings (warnings σ1 ++ [msg]) σ1)).
  { intros msg σ1 Hσ1. exact Hσ1. }
  destruct (flatten_changes_world_only_through_sink P _ use o Hl Hi Hw)
    as (_ & _ & Hd).
  apply (Hd d σ). split; reflexivity.
Qed.

(** ** The order of reads, upload and commit in [flattenImage] *)

(** [flattenImage] reads before it writes: when the digest, the manifest
    or the config of the image cannot be read, or its history cannot be
    serialised, it fails with that error, in this order of precedence,
    and the sink is not called. *)
Theorem flattenImage_reads_before_writes `{Codec} old w use o σ :
  (forall e, img_Digest old = Err e ->
     cmd.flattenImage old w use o σ = (Err (Errorf "getting old digest" e), σ))
  /\ (forall digest e,
        img_Digest old = Ok digest -> img_Manifest old = Err e ->
        cmd.flattenImage old w use o σ = (Err (Errorf "reading manifest" e), σ))
  /\ (forall digest m e,
        img_Digest old = Ok digest -> img_Manifest old = Ok m ->
        img_ConfigFile old = Err e ->
        cmd.flattenImage old w use o σ = (Err (Errorf "getting config" e), σ))
  /\ (forall digest m cf e,
        img_Digest old = Ok digest -> img_Manifest old = Ok m ->
        img_ConfigFile old = Ok cf -> json_Marshal (cf_History cf) = Err e ->
        cmd.flattenImage old w use o σ = (Err ErrMarshalHistory, σ)).
Proof.
  unfold cmd.flattenImage, bind, wrap, lift.
  repeat split.
  - intros e ->. reflexivity.
  - intros digest e -> ->. reflexivity.
  - intros digest m e -> -> ->. reflexivity.
  - intros digest m cf e -> -> -> ->. reflexivity.
Qed.

(** When the upload of the new layer fails, [flattenImage] fails with
    that error under "uploading layer" and commits no image: the world
    is the one the failed upload left. *)
Theorem flattenImage_upload_failure_stops `{Codec} old w use o σ digest m cf h e σ1 :
  img_Digest old = Ok digest ->
  img_Manifest old = Ok m ->
  img_ConfigFile old = Ok cf ->
  json_Marshal (cf_History cf) = Ok h ->
  cmd.WriteLayer w (stream_NewLayer_Extract old gzip_BestCompression)
                 (crane.opt_Remote o) σ = (Err e, σ1) ->
  cmd.flattenImage old w use o σ = (Err (Errorf "uploading layer" e), σ1).
Proof.
  intros Hd Hm Hcf Hj Hup.
  unfold cmd.flattenImage, bind, wrap, lift, ret.
  rewrite Hd, Hm, Hcf, Hj. cbn. rewrite Hup. reflexivity.
Qed.

(** A successful [flattenImage] has called the sink exactly twice: one
    upload of the new layer, then one commit of the image it returns. *)
Theorem flattenImage_uploads_then_commits `{Codec} old w use o σ r σ' :
  cmd.flattenImage old w use o σ = (Ok r, σ') ->
  exists img σ1,
    cmd.WriteLayer w (stream_NewLayer_Extract old gzip_BestCompression)
                   (crane.opt_Remote o) σ = (Ok tt, σ1)
    /\ cmd.WriteImage w img σ1 = (Ok tt, σ')
    /\ r = AnImage img.
Proof.
  intros Hrun. unfold cmd.flattenImage in Hrun.
  apply bind_Ok in Hrun as (digest & σa & Hd & Hrun).
  apply wrap_Ok, lift_Ok in Hd as [Hd ->].
  apply bind_Ok in Hrun as (m & σb & Hm & Hrun).
  apply wrap_Ok, lift_Ok in Hm as [Hm ->].
  apply bind_Ok in Hrun as (cf & σc & Hcf & Hrun).
  apply wrap_Ok, lift_Ok in Hcf as [Hcf ->].
  apply bind_Ok in Hrun as (oldHistory & σd & Hh & Hrun).
  destruct (json_Marshal (cf_History cf)) as [s|e] eqn:Hjson; [|discriminate].
  apply ret_Ok in Hh as [-> ->].
  apply bind_Ok in Hrun as (img0 & σe & H0 & Hrun).
  apply wrap_Ok, lift_Ok in H0 as [H0 ->].
  apply bind_Ok in Hrun as ([] & σ1 & Hup & Hrun).
  apply wrap_Ok in Hup.
  apply bind_Ok in Hrun as (img1 & σf & H1 & Hrun).
  apply wrap_Ok, lift_Ok in H1 as [H1 ->].
  apply bind_Ok in Hrun as ([] & σ2 & Hwr & Hrun).
  apply wrap_Ok in Hwr.
  apply ret_Ok in Hrun as [-> ->].
  eexists _, σ1. split; [exact Hup|]. split; [exact Hwr | reflexivity].
Qed.

(** An error of the registry upload reaches the caller of [flattenImage]
    under two "uploading layer" prefixes: the remote sink adds one,
    [flattenImage] another. *)
Theorem remote_upload_error_wrapped_twice `{Codec} old rw use o σ digest m cf h e σ1 :
  img_Digest old = Ok digest ->
  img_Manifest old = Ok m ->
  img_ConfigFile old = Ok cf ->
  json_Marshal (cf_History cf) = Ok h ->
  remote.WriteLayer (cmd.repo rw)
    (stream_NewLayer_Extract old gzip_BestCompression) (crane.opt_Remote o) σ
  = (Err e, σ1) ->
  cmd.flattenImage old (cmd.remoteWriter rw) use o σ
  = (Err (Errorf "uploading layer" (Errorf "uploading layer" e)), σ1).
Proof.
  intros Hd Hm Hcf Hj Hup.
  unfold cmd.flattenImage, bind, wrap, lift, ret.
  rewrite Hd, Hm, Hcf, Hj. cbn.
  unfold cmd.RemoteWriter_WriteLayer, wrap. rewrite Hup. reflexivity.
Qed.

(** ** Failures of [flattenIndex] *)

(** An error of the loop of [flattenIndex] is the error of one child,
    as it came: of reading its descriptor, of flattening it, or of
    reading the size or the digest of what it was flattened to. *)
Lemma flattenRange_Err f ms adds σ e σ' :
  cmd.flattenRange f ms adds σ = (Err e, σ') ->
  exists c,
    c ∈ ms
    /\ (partial.Descriptor c = Err e
        \/ (exists σa, f c σa = (Err e, σ'))
        \/ (exists c' σa,
              f c σa = (Ok c', σ')
              /\ (partial.Size c' = Err e \/ partial.Digest c' = Err e))).
Proof.
  revert adds σ. induction ms as [|c cs IH]; intros adds σ Hrun; [discriminate|].
  cbn [cmd.flattenRange] in Hrun. unfold bind at 1, lift at 1 in Hrun.
  destruct (partial.Descriptor c) as [d|e0] eqn:Hd.
  2: { injection Hrun as <- <-. exists c. split; [left|]. auto. }
  assert (Hrest : forall adds1 σ1,
             cmd.flattenRange f cs adds1 σ1 = (Err e, σ') ->
             exists c0, c0 ∈ c :: cs
               /\ (partial.Descriptor c0 = Err e
                   \/ (exists σa, f c0 σa = (Err e, σ'))
                   \/ (exists c' σa,
                         f c0 σa = (Ok c', σ')
                         /\ (partial.Size c' = Err e \/ partial.Digest c' = Err e)))).
  { intros adds1 σ1 H1. destruct (IH _ _ H1) as (c0 & Hin & Hc0).
    exists c0. split; [right; exact Hin | exact Hc0]. }
  destruct (cmd.isAttestation d); [eapply Hrest; exact Hrun|].
  unfold bind at 1 in Hrun.
  destruct (f c σ) as [[c'|e1] σ1] eqn:Hf.
  2: { injection Hrun as <- <-. exists c. split; [left|]. eauto. }
  unfold bind at 1, lift at 1 in Hrun.
  destruct (partial.Size c') as [sz|e2] eqn:Hsz.
  2: { injection Hrun as <- <-. exists c. split; [left|]. eauto 8. }
  unfold bind at 1, lift at 1 in Hrun.
  destruct (partial.Digest c') as [dg|e3] eqn:Hdg.
  2: { injection Hrun as <- <-. exists c. split; [left|]. eauto 8. }
  eapply Hrest; exact Hrun.
Qed.

(** [flattenIndex] adds no context to an error: what it returns is the
    error of reading the manifest, the children or the media type of the
    index, or the error of one of its children. *)
Theorem flattenIndex_error_origin `{Codec} old w use o σ e σ' :
  cmd.flattenIndex old w use o σ = (Err e, σ') ->
  (idx_IndexManifest old = Err e /\ σ' = σ)
  \/ (partial.Manifests old = Err e /\ σ' = σ)
  \/ idx_MediaType old = Err e
  \/ exists children c,
       partial.Manifests old = Ok children /\ c ∈ children
       /\ (partial.Descriptor c = Err e
           \/ (exists σa, cmd.flattenChild c w use o σa = (Err e, σ'))
           \/ (exists c' σa,
                 cmd.flattenChild c w use o σa = (Ok c', σ')
                 /\ (partial.Size c' = Err e \/ partial.Digest c' = Err e))).
Proof.
  intros Hrun. rewrite flattenIndex_unfold in Hrun.
  unfold bind at 1, lift at 1 in Hrun.
  destruct (idx_IndexManifest old) as [m|e0]; [|injection Hrun as <- <-; auto].
  destruct (partial.Manifests old) as [children|e1];
    [|injection Hrun as <- <-; auto].
  unfold bind at 1 in Hrun.
  destruct (cmd.flattenRange _ children [] σ) as [[adds|e2] σ1] eqn:Hloop.
  - unfold bind at 1, lift at 1 in Hrun.
    destruct (idx_MediaType old) as [mt|e3]; [discriminate|].
    injection Hrun as <- <-. auto.
  - injection Hrun as <- <-.
    apply flattenRange_Err in Hloop as (c & Hin & Hc).
    right. right. right. exists children, c. auto.
Qed.

(** The media type of the index is read last: when it cannot be read,
    [flattenIndex] fails after its children have been flattened, and
    what they wrote to the sink stays written. *)
Theorem flattenIndex_fails_late_without_rollback `{Codec}
    old w use o σ m children adds σ1 e :
  idx_IndexManifest old = Ok m ->
  partial.Manifests old = Ok children ->
  cmd.flattenRange (fun c => cmd.flattenChild c w use o) children [] σ
  = (Ok adds, σ1) ->
  idx_MediaType old = Err e ->
  cmd.flattenIndex old w use o σ = (Err e, σ1).
Proof.
  intros Hm Hch Hloop Hmt. rewrite flattenIndex_unfold.
  unfold bind at 1, lift at 1. rewrite Hm, Hch.
  unfold bind at 1. rewrite Hloop.
  unfold bind at 1, lift at 1. rewrite Hmt. reflexivity.
Qed.

(** Children marked unknown/unknown are passed over without a call of
    [flattenChild]. *)
Lemma flattenRange_attestations f ms adds σ :
  Forall (fun c => exists d, partial.Descriptor c = Ok d
                             /\ cmd.isAttestation d = true) ms ->
  cmd.flattenRange f ms adds σ = (Ok adds, σ).
Proof.
  induction 1 as [|c cs (d & Hd & Hatt) _ IH]; [reflexivity|].
  cbn [cmd.flattenRange]. unfold bind at 1, lift at 1.
  rewrite Hd, Hatt. exact IH.
Qed.

(** An index without children, or with attestations only, is flattened
    to an index without children; the sink is not called. *)
Theorem flattenIndex_of_attestations_only `{Codec} old w use o σ m children mt :
  idx_IndexManifest old = Ok m ->
  partial.Manifests old = Ok children ->
  idx_MediaType old = Ok mt ->
  Forall (fun c => exists d, partial.Descriptor c = Ok d
                             /\ cmd.isAttestation d = true) children ->
  exists idx m',
    cmd.flattenIndex old w use o σ = (Ok (AnIndex idx), σ)
    /\ idx_IndexManifest idx = Ok m'
    /\ im_Manifests m' = []
    /\ partial.Manifests idx = Ok [].
Proof.
  intros Hm Hch Hmt Hall. rewrite flattenIndex_unfold.
  unfold bind at 1, lift at 1. rewrite Hm, Hch.
  unfold bind at 1. rewrite (flattenRange_attestations _ _ _ _ Hall).
  unfold bind at 1, lift at 1. rewrite Hmt. unfold ret.
  case_bool_decide; eexists _, _; repeat split; reflexivity.
Qed.

(** ** The root dispatch *)

(** What [flatten] returns has the shape the media type of the root
    announces: an index for an index-shaped root, an image for an
    image-shaped one; the index-shaped test comes first. *)
Theorem flatten_returns_the_shape_of_the_root `{V1} `{Codec} ref w use o σ r σ' :
  cmd.flatten ref w use o σ = (Ok r, σ') ->
  exists desc,
    manifests σ !! ref = Some desc
    /\ ((IsIndex (rd_MediaType desc) = true
         /\ exists old idx, rd_ImageIndex desc = Ok old /\ r = AnIndex idx
                            /\ idx_MediaType idx = idx_MediaType old)
        \/ (IsIndex (rd_MediaType desc) = false
            /\ IsImage (rd_MediaType desc) = true
            /\ exists old img, rd_Image desc = Ok old /\ r = AnImage img)).
Proof.
  intros Hrun. unfold cmd.flatten in Hrun.
  apply bind_Ok in Hrun as (desc & σ1 & Hget & Hrun).
  apply wrap_Ok in Hget. unfold remote.Get in Hget.
  destruct (manifests σ !! ref) as [desc'|] eqn:Href; [|discriminate].
  injection Hget as -> ->.
  exists desc. split; [reflexivity|].
  destruct (IsIndex (rd_MediaType desc)) eqn:Hi.
  - left. split; [reflexivity|].
    apply bind_Ok in Hrun as (old & σ2 & Hold & Hrun).
    apply lift_Ok in Hold as [Hold ->].
    apply flattenIndex_shape in Hrun
      as (m0 & children & mt & adds & idx & m
          & _ & _ & Hmt & _ & -> & Hmt' & _).
    exists old, idx. rewrite Hmt, Hmt'. auto.
  - right. split; [reflexivity|].
    destruct (IsImage (rd_MediaType desc)) eqn:Him; [|discriminate].
    split; [reflexivity|].
    apply bind_Ok in Hrun as (old & σ2 & Hold & Hrun).
    apply lift_Ok in Hold as [Hold ->].
    apply flattenImage_Ok in Hrun
      as (digest & m & cf & oldHistory & img1 & _ & _ & _ & _ & _ & ->).
    eexists old, _. auto.
Qed.

(** ** The run of the [flatten] subcommand *)

Section RunProperties.
Context `{V1} `{Codec} `{Naming}.

(** With [--format oci], an empty [--tag] or one equal to the source
    ends the command before anything is read or written. *)
Theorem oci_run_refuses_in_place fs use parentUse o dst src σ :
  dst = "" \/ src = dst ->
  exists msg,
    flattenCmd.Run fs use parentUse o "oci" dst src σ = (flattenCmd.Fatal msg flattenCmd.NoCause, σ).
Proof.
  intros Hbad. unfold flattenCmd.Run. cbn [String.eqb Ascii.eqb Bool.eqb].
  destruct (String.eqb dst "") eqn:Hd; [eexists; reflexivity|].
  destruct Hbad as [-> | ->]; [discriminate|].
  rewrite String.eqb_refl. eexists. reflexivity.
Qed.


(** With [--format oci] the command touches the registry in no way, and
    what it prints on success is the destination path, which is then
    neither empty nor the source. *)
Theorem oci_run_stays_local fs use parentUse o dst src σ ex σ' :
  flattenCmd.Run fs use parentUse o "oci" dst src σ = (ex, σ') ->
  uploads σ' = uploads σ /\ manifests σ' = manifests σ
  /\ (forall line, ex = flattenCmd.Stdout line -> line = dst /\ dst <> "" /\ src <> dst).
Proof.
  unfold flattenCmd.Run. cbn [String.eqb Ascii.eqb Bool.eqb].
  destruct (String.eqb dst "") eqn:Hd;
    [intros [= <- <-]; repeat split; discriminate|].
  destruct (String.eqb src dst) eqn:Hs;
    [intros [= <- <-]; repeat split; discriminate|].
  apply String.eqb_neq in Hd, Hs.
  destruct (layout.FromPath fs src) as [path|e];
    [|intros [= <- <-]; repeat split; discriminate].
  destruct (layout.path_ImageIndex fs path) as [idx|e];
    [|intros [= <- <-]; repeat split; discriminate].
  pose proof (local_sink_uploads_nothing {| cmd.dst := dst |} use o (AnIndex idx) σ)
    as [Hu Hm].
  rewrite flattenChild_unfold in Hu, Hm.
  destruct (cmd.flattenIndex idx _ use o σ) as [[r|e] σ1]; cbn in Hu, Hm;
    intros [= <- <-]; (split; [exact Hu|]); (split; [exact Hm|]);
    intros line Hline; [|discriminate].
  injection Hline as <-. auto.
Qed.




End RunProperties.

(** ** Examples of the properties above *)

Lemma flatten_changes_world_only_through_sink_witness :
  disk (@cmd.flattenIndex toyCodec multiIndex toRepo "crane" readOptions
          registryWorld).2 = ∅.
Proof.
  assert (Hl : forall l opts,
             preserves (fun σ => disk σ = ∅) (cmd.WriteLayer toRepo l opts)).
  { intros l opts σ Hσ. cbn.
    unfold cmd.RemoteWriter_WriteLayer, wrap, remote.WriteLayer.
    destruct (uploads σ !! _); exact Hσ. }
  assert (Hi : forall img, preserves (fun σ => disk σ = ∅) (cmd.WriteImage toRepo img)).
  { intros img σ Hσ. exact Hσ. }
  assert (Hw : forall msg σ,
             disk σ = ∅ -> disk (set_warnings (warnings σ ++ [msg]) σ) = ∅).
  { intros msg σ Hσ. exact Hσ. }
  apply (proj1 (proj2 (@flatten_changes_world_only_through_sink toyCodec
                         (fun σ => disk σ = ∅) toRepo "crane" readOptions Hl Hi Hw))
           multiIndex registryWorld eq_refl).
Defined.

Lemma flattenImage_reads_before_writes_witness :
  @cmd.flattenImage toyCodec digestlessImage toRepo "crane" readOptions registryWorld
  = (Err (Errorf "getting old digest"
            (ErrExternal "digest: unexpected end of JSON input")),
     registryWorld).
Proof.
  apply (proj1 (@flattenImage_reads_before_writes toyCodec digestlessImage toRepo
                  "crane" readOptions registryWorld)).
  reflexivity.
Defined.

Lemma flattenImage_upload_failure_stops_witness :
  @cmd.flattenImage toyCodec layeredImage toRepo "crane" readOptions emptyWorld
  = (Err (Errorf "uploading layer"
            (Errorf "uploading layer"
               (ErrExternal "repository unknown: example.com/repo"))),
     emptyWorld).
Proof.
  eapply (@flattenImage_upload_failure_stops toyCodec layeredImage toRepo "crane"
            readOptions emptyWorld); reflexivity.
Defined.

Lemma flattenImage_uploads_then_commits_witness :
  exists r σ' img σ1,
    @cmd.flattenImage toyCodec layeredImage toRepo "crane" readOptions registryWorld
    = (Ok r, σ')
    /\ cmd.WriteLayer toRepo
         (@stream_NewLayer_Extract toyCodec layeredImage gzip_BestCompression)
         (crane.opt_Remote readOptions) registryWorld = (Ok tt, σ1)
    /\ cmd.WriteImage toRepo img σ1 = (Ok tt, σ')
    /\ r = AnImage img.
Proof.
  destruct (@cmd.flattenImage toyCodec layeredImage toRepo "crane" readOptions
              registryWorld) as [r σ'] eqn:Hrun.
  assert (Hok : exists r', r = Ok r').
  { vm_compute in Hrun. injection Hrun as <- _. eexists. reflexivity. }
  destruct Hok as [r' ->].
  destruct (@flattenImage_uploads_then_commits toyCodec layeredImage toRepo "crane"
              readOptions registryWorld r' σ' Hrun) as (img & σ1 & Hrest).
  exists r', σ', img, σ1. split; [reflexivity | exact Hrest].
Defined.

Lemma remote_upload_error_wrapped_twice_witness :
  @cmd.flattenImage toyCodec layeredImage
    (@cmd.remoteWriter {| cmd.repo := "example.com/gone" |}) "crane" readOptions
    registryWorld
  = (Err (Errorf "uploading layer"
            (Errorf "uploading layer"
               (ErrExternal "repository unknown: example.com/gone"))),
     registryWorld).
Proof.
  eapply (@remote_upload_error_wrapped_twice toyCodec layeredImage
            {| cmd.repo := "example.com/gone" |} "crane" readOptions registryWorld);
    reflexivity.
Defined.

Lemma flattenIndex_error_origin_witness :
  exists e σ',
    @cmd.flattenIndex toyCodec untypedIndex toLayout "crane" readOptions emptyWorld
    = (Err e, σ')
    /\ ((idx_IndexManifest untypedIndex = Err e /\ σ' = emptyWorld)
        \/ (partial.Manifests untypedIndex = Err e /\ σ' = emptyWorld)
        \/ idx_MediaType untypedIndex = Err e
        \/ exists children c,
             partial.Manifests untypedIndex = Ok children /\ c ∈ children
             /\ (partial.Descriptor c = Err e
                 \/ (exists σa, @cmd.flattenChild toyCodec c toLayout "crane"
                                  readOptions σa = (Err e, σ'))
                 \/ (exists c' σa,
                       @cmd.flattenChild toyCodec c toLayout "crane" readOptions σa
                       = (Ok c', σ')
                       /\ (partial.Size c' = Err e \/ partial.Digest c' = Err e)))).
Proof.
  destruct (@cmd.flattenIndex toyCodec untypedIndex toLayout "crane" readOptions
              emptyWorld) as [r σ'] eqn:Hrun.
  assert (Hok : r = Err (ErrExternal "media type: unexpected end of JSON input")).
  { vm_compute in Hrun. injection Hrun as <- _. reflexivity. }
  subst r.
  eexists _, σ'. split; [reflexivity|].
  exact (@flattenIndex_error_origin toyCodec untypedIndex toLayout "crane"
           readOptions emptyWorld _ σ' Hrun).
Defined.

Lemma flattenIndex_fails_late_without_rollback_witness :
  exists σ1,
    @cmd.flattenIndex toyCodec untypedIndex toLayout "crane" readOptions emptyWorld
    = (Err (ErrExternal "media type: unexpected end of JSON input"), σ1)
    /\ length (listed "out" σ1) = 1%nat.
Proof.
  destruct (@cmd.flattenRange
              (fun c => @cmd.flattenChild toyCodec c toLayout "crane" readOptions)
              [AnImage (childImage "amd" (Some linuxAmd64))] [] emptyWorld)
    as [r σ1] eqn:Hloop.
  assert (Hok : exists adds, r = Ok adds /\ length (listed "out" σ1) = 1%nat).
  { vm_compute in Hloop. injection Hloop as <- <-. eexists. split; reflexivity. }
  destruct Hok as (adds & -> & Hlisted).
  exists σ1. split; [|exact Hlisted].
  eapply (@flattenIndex_fails_late_without_rollback toyCodec untypedIndex toLayout
            "crane" readOptions emptyWorld);
    [reflexivity | reflexivity | exact Hloop | reflexivity].
Defined.

Lemma flattenIndex_of_attestations_only_witness :
  exists idx m',
    @cmd.flattenIndex toyCodec attestationIndex toLayout "crane" readOptions emptyWorld
    = (Ok (AnIndex idx), emptyWorld)
    /\ idx_IndexManifest idx = Ok m'
    /\ im_Manifests m' = []
    /\ partial.Manifests idx = Ok [].
Proof.
  eapply (@flattenIndex_of_attestations_only toyCodec attestationIndex toLayout
            "crane" readOptions emptyWorld);
    [reflexivity | reflexivity | reflexivity |].
  repeat constructor. eexists. split; reflexivity.
Defined.

Lemma flatten_returns_the_shape_of_the_root_witness :
  exists r σ',
    @cmd.flatten ociV1 toyCodec "example.com/repo@sha256:layered" toRepo "crane"
      readOptions pulledWorld = (Ok r, σ')
    /\ exists img, r = AnImage img.
Proof.
  destruct (@cmd.flatten ociV1 toyCodec "example.com/repo@sha256:layered" toRepo
              "crane" readOptions pulledWorld) as [r σ'] eqn:Hrun.
  assert (Hok : exists r', r = Ok r').
  { vm_compute in Hrun. injection Hrun as <- _. eexists. reflexivity. }
  destruct Hok as [r' ->].
  destruct (@flatten_returns_the_shape_of_the_root ociV1 toyCodec _ _ _ _ _ _ _ Hrun)
    as (desc & Hdesc & [(Hi & _) | (_ & _ & old & img & _ & ->)]).
  - exfalso. vm_compute in Hdesc. injection Hdesc as <-. discriminate.
  - exists (AnImage img), σ'. split; [reflexivity | eauto].
Defined.

Lemma oci_run_refuses_in_place_witness :
  exists msg,
    @flattenCmd.Run ociV1 toyCodec toyNaming (diskWith "img" multiIndex)
      "crane" "crane" readOptions "oci" "img" "img" emptyWorld
    = (flattenCmd.Fatal msg flattenCmd.NoCause, emptyWorld).
Proof.
  apply (@oci_run_refuses_in_place ociV1 toyCodec toyNaming). right. reflexivity.
Defined.

Lemma oci_run_stays_local_witness :
  exists σ',
    @flattenCmd.Run ociV1 toyCodec toyNaming (diskWith "img" multiIndex)
      "crane" "crane" readOptions "oci" "out" "img" pulledWorld
    = (flattenCmd.Stdout "out", σ')
    /\ uploads σ' = uploads pulledWorld /\ manifests σ' = manifests pulledWorld
    /\ length (listed "out" σ') = 2%nat.
Proof.
  destruct (@flattenCmd.Run ociV1 toyCodec toyNaming (diskWith "img" multiIndex)
              "crane" "crane" readOptions "oci" "out" "img" pulledWorld)
    as [ex σ'] eqn:Hrun.
  assert (Hok : ex = flattenCmd.Stdout "out" /\ length (listed "out" σ') = 2%nat).
  { vm_compute in Hrun. injection Hrun as <- <-. split; reflexivity. }
  destruct Hok as [-> Hlisted].
  destruct (@oci_run_stays_local ociV1 toyCodec toyNaming _ _ _ _ _ _ _ _ _ Hrun)
    as (Hu & Hm & _).
  exists σ'. auto.
Defined.

